(** * rename_files.py: stripping the [@domain] part of [.conf] file names

    A shallow embedding of [rename_files.py] and the properties of its
    name transformation, collision avoidance and directory pass.

    Layout of the file:
    - [PyStr]: the [str] operations the script uses ([in], [split],
      [rfind], slices, decimal formatting, the [*.conf] pattern);
    - [PurePath]: [Path.stem] and [Path.suffix] on a final path component;
    - [FS]: the directory tree the script reads and renames in, with
      symbolic links, which [exists], [is_file] and the resolution of
      the path follow, and [os.rename] as an operation that can fail;
    - the script's own functions, under their own names: state is
      passed explicitly (the directory, the two counters, standard
      output) and every piece returns how it ended ([status]);
    - the vocabulary of the properties, then lemmas, then one theorem
      per documented property.

    What the model leaves out: symbolic links that lead out of their
    directory (a link is to an entry of the same directory, by name);
    limits on the length of a name, so that in the model every
    existence check answers, and no property below says that a pass over
    an arbitrary tree returns; permissions other than that of renaming
    in a directory; file systems that fold the case of names; the
    parsing of the command line; and any other process touching the
    tree during the pass. *)

From Stdlib Require Import String Ascii List Bool Arith ZArith Lia.
From Stdlib Require Import Decimal DecimalNat DecimalString.
From Stdlib Require Import Lists.Finite.
From Stdlib Require Import Permutation.
Import ListNotations.

Set Warnings "-register-all".
Open Scope string_scope.

(* ================================================================== *)
(** ** Python [str] *)
(* ================================================================== *)

Module PyStr.

(** [c in s] for a one-character [c]. *)
Fixpoint contains (c : ascii) (s : string) : bool :=
  match s with
  | EmptyString => false
  | String a s' => Ascii.eqb a c || contains c s'
  end.

(** The first occurrence of [c] cuts [s] in two: what is before it and
    what is after it. [None] when [c] does not occur. *)
Fixpoint cut (c : ascii) (s : string) : option (string * string) :=
  match s with
  | EmptyString => None
  | String a s' =>
      if Ascii.eqb a c then Some (EmptyString, s')
      else match cut c s' with
           | Some (p, q) => Some (String a p, q)
           | None => None
           end
  end.

(** [s.split(c, 1)]: at most one split, at the first [c]. *)
Definition split1 (c : ascii) (s : string) : list string :=
  match cut c s with
  | Some (p, q) => [p; q]
  | None => [s]
  end.

(** [l[0]] on a list that [split] returned (never empty). *)
Definition item0 (l : list string) : string := hd EmptyString l.

(** [s.rfind(c)]: the highest index of [c] in [s], [-1] when absent.
    [rfind_from c s i] searches [s], whose first character has index [i]. *)
Fixpoint rfind_from (c : ascii) (s : string) (i : Z) : Z :=
  match s with
  | EmptyString => (-1)%Z
  | String a s' =>
      let r := rfind_from c s' (i + 1)%Z in
      if (0 <=? r)%Z then r
      else if Ascii.eqb a c then i else (-1)%Z
  end.

Definition rfind (c : ascii) (s : string) : Z := rfind_from c s 0%Z.

Definition len (s : string) : Z := Z.of_nat (String.length s).

(** [s[:i]] and [s[i:]] for [0 <= i]. *)
Definition slice_to (s : string) (i : Z) : string :=
  substring 0 (Z.to_nat i) s.

Definition slice_from (s : string) (i : Z) : string :=
  substring (Z.to_nat i) (String.length s - Z.to_nat i) s.

(** [str(n)] for a non-negative [int]: decimal digits, no sign. *)
Definition str_of_int (n : nat) : string :=
  NilEmpty.string_of_uint (Nat.to_uint n).

(** [s.endswith(suf)]. *)
Fixpoint endswith (s suf : string) : bool :=
  String.eqb s suf ||
  match s with
  | EmptyString => false
  | String _ s' => endswith s' suf
  end.

(** The pattern [*.conf] of [fnmatch], case-sensitive as on POSIX: any
    run of characters, then the five characters [.conf]. *)
Definition matches_conf (name : string) : bool := endswith name ".conf".

End PyStr.

(* ================================================================== *)
(** ** [pathlib]: stem and suffix of a final path component *)
(* ================================================================== *)

Module PurePath.
Import PyStr.

(** [PurePath.suffix], as CPython has it through 3.13:
<<
    i = name.rfind('.')
    if 0 < i < len(name) - 1: return name[i:]
    else: return ''
>> *)
Definition suffix (name : string) : string :=
  let i := rfind "." name in
  if ((0 <? i) && (i <? len name - 1))%Z then slice_from name i
  else EmptyString.

(** [PurePath.stem]: the same test, [name[:i]] or else the whole name. *)
Definition stem (name : string) : string :=
  let i := rfind "." name in
  if ((0 <? i) && (i <? len name - 1))%Z then slice_to name i
  else name.

End PurePath.

(* ================================================================== *)
(** ** The name transformer *)
(* ================================================================== *)

(** [compute_target_name(src)], on the final component of [src]:
<<
    base = src.stem
    pre = base.split('@', 1)[0]
    if pre == base: return None
    return pre + src.suffix
>> *)
Definition compute_target_name (src : string) : option string :=
  let base := PurePath.stem src in
  let pre := PyStr.item0 (PyStr.split1 "@" base) in
  if String.eqb pre base then None
  else Some (pre ++ PurePath.suffix src).

(* ================================================================== *)
(** ** The file system *)
(* ================================================================== *)

Module FS.

(** An entry that is not a directory: a regular file, something else
    that exists (fifo, socket, device), or a symbolic link, whose target
    is the entry of that name in the same directory; there need be no
    such entry. *)
Inductive ftype : Type :=
| Regular
| Special
| Link (target : string).

(** A directory: whether entries may be renamed in it, its entries that
    are not directories, and its subdirectories. Both lists are in the
    order a scan of the directory returns them; no order is assumed
    anywhere. *)
Inductive tree : Type :=
| Dir (writable : bool)
      (files : list (string * ftype))
      (subdirs : list (string * tree)).

Definition files_t := list (string * ftype).
Definition subdirs_t := list (string * tree).

Inductive exn : Type :=
| PermissionError
| FileNotFoundError
| IsADirectoryError.

Fixpoint lookup {A} (name : string) (l : list (string * A)) : option A :=
  match l with
  | [] => None
  | (n, x) :: l' => if String.eqb n name then Some x else lookup name l'
  end.

Definition mem (name : string) (l : list string) : bool :=
  existsb (String.eqb name) l.

(** Every name in the directory. *)
Definition names (files : files_t) (subs : subdirs_t) : list string :=
  map fst files ++ map fst subs.

(** How many symbolic links the system follows before it gives up with
    [ELOOP]; the links of one name are counted here, not those passed
    on the way to its directory. *)
Definition MAXSYMLINKS : nat := 40.

(** Following the links from [name]: the name the chain ends at, which
    is not that of a link; [None] when the chain is longer than [hops]
    links. *)
Fixpoint chase (hops : nat) (files : files_t) (name : string)
  : option string :=
  match lookup name files with
  | Some (Link target) =>
      match hops with
      | O => None
      | S hops' => chase hops' files target
      end
  | _ => Some name
  end.

(** [(directory / name).exists()]: links are followed; a link to
    nothing, and a chain of links that is too long, do not exist. *)
Definition exists_ (files : files_t) (subs : subdirs_t) (name : string)
  : bool :=
  match chase MAXSYMLINKS files name with
  | Some n => mem n (names files subs)
  | None => false
  end.

(** [(directory / name).is_file()]: links are followed. *)
Definition is_file (files : files_t) (name : string) : bool :=
  match chase MAXSYMLINKS files name with
  | Some n =>
      match lookup n files with
      | Some Regular => true
      | _ => false
      end
  | None => false
  end.

Definition remove (name : string) (files : files_t) : files_t :=
  filter (fun e => negb (String.eqb (fst e) name)) files.

Definition relabel (src dst : string) (files : files_t) : files_t :=
  map (fun e => if String.eqb (fst e) src then (dst, snd e) else e) files.

(** [os.rename(src, dst)] of a non-directory [src] inside one directory,
    as POSIX has it: it fails when [src] is missing, when the directory
    is not writable or when [dst] is a directory; it replaces an
    existing non-directory [dst]; the entry keeps its place. Links are
    not followed: it is the entry [src] itself that is renamed, and the
    entry [dst] itself that is replaced. *)
Definition rename (w : bool) (files : files_t) (subs : subdirs_t)
           (src dst : string) : files_t + exn :=
  match lookup src files with
  | None => inr FileNotFoundError
  | Some _ =>
      if negb w then inr PermissionError
      else if mem dst (map fst subs) then inr IsADirectoryError
      else if String.eqb src dst then inl files
      else inl (relabel src dst (remove dst files))
  end.

(** The directory at a position, a position being the names of the
    directories from the top of the tree down to it. *)
Fixpoint resolve (t : tree) (p : list string) : option tree :=
  match p with
  | [] => Some t
  | c :: p' =>
      match t with
      | Dir _ _ subs =>
          match lookup c subs with
          | Some t' => resolve t' p'
          | None => None
          end
      end
  end.

Fixpoint put {A} (name : string) (x : A) (l : list (string * A))
  : list (string * A) :=
  match l with
  | [] => []
  | (n, y) :: l' =>
      if String.eqb n name then (name, x) :: l' else (n, y) :: put name x l'
  end.

(** The tree with the directory at the position [p] replaced by
    [new]. *)
Fixpoint replace (t : tree) (p : list string) (new : tree) : tree :=
  match p with
  | [] => new
  | c :: p' =>
      match t with
      | Dir w files subs =>
          match lookup c subs with
          | Some t' => Dir w files (put c (replace t' p' new) subs)
          | None => t
          end
      end
  end.

(** The subdirectory of [t] that the path component [c] leads to, [c]
    being its name or that of a link to it. *)
Definition enter (t : tree) (c : string) : option string :=
  match t with
  | Dir _ files subs =>
      match chase MAXSYMLINKS files c with
      | Some n => if mem n (map fst subs) then Some n else None
      | None => None
      end
  end.

(** Where the parts of a path lead from the position [pos], as the
    system resolves them: [..] is the directory above (the top is above
    itself), [.] and an empty part stay, a name enters a subdirectory.
    [None] when a part is missing or is not a directory. *)
Fixpoint locate (fs : tree) (pos : list string) (parts : list string)
  : option (list string) :=
  match parts with
  | [] => Some pos
  | c :: rest =>
      if String.eqb c ".." then locate fs (removelast pos) rest
      else if String.eqb c "." || String.eqb c EmptyString
           then locate fs pos rest
      else
        match resolve fs pos with
        | Some d =>
            match enter d c with
            | Some n => locate fs (pos ++ [n]) rest
            | None => None
            end
        | None => None
        end
  end.

End FS.

Import FS.

(* ================================================================== *)
(** ** The collision resolver *)
(* ================================================================== *)

(** The [while] loop of [next_available_name]:
<<
    while (directory / candidate).exists():
        candidate = f"{stem}-{i}{ext}"
        i += 1
    return candidate
>>
    [fuel] bounds the number of iterations; [None] when it runs out. *)
Fixpoint next_available_loop (fuel : nat) (files : files_t) (subs : subdirs_t)
         (stem ext candidate : string) (i : nat) : option string :=
  if exists_ files subs candidate then
    match fuel with
    | O => None
    | S fuel' =>
        next_available_loop fuel' files subs stem ext
          (stem ++ "-" ++ PyStr.str_of_int i ++ ext) (i + 1)
    end
  else Some candidate.

(** [next_available_name(directory, stem, ext)]. The loop gets one
    iteration per entry of the directory, which is always enough
    (see [next_available_name_total]). *)
Definition next_available_name (files : files_t) (subs : subdirs_t)
           (stem ext : string) : option string :=
  next_available_loop (List.length (names files subs)) files subs stem ext
    (stem ++ ext) 1.

(* ================================================================== *)
(** ** The directory pass *)
(* ================================================================== *)

(** The two counters of [rename_in_directory] and what was printed. *)
Record run_state : Type := mkRun {
  renamed : nat;
  skipped : nat;
  stdout : list string
}.

(** How a piece of the script ends: it runs to its end, an exception
    leaves it, or (in the model only) a loop runs out of fuel. *)
Inductive status : Type :=
| Normal
| Raised (e : exn)
| OutOfFuel.

Definition print (line : string) (rs : run_state) : run_state :=
  mkRun (renamed rs) (skipped rs) (stdout rs ++ [line]).

Definition count_renamed (rs : run_state) : run_state :=
  mkRun (renamed rs + 1) (skipped rs) (stdout rs).

Definition count_skipped (rs : run_state) : run_state :=
  mkRun (renamed rs) (skipped rs + 1) (stdout rs).

(** Lines 43 to 47: the final name of the target.
<<
    target = file.with_name(target_basename)
    if target.exists():
        stem = target.stem
        ext = target.suffix
        target = file.with_name(next_available_name(file.parent, stem, ext))
>> *)
Definition final_target (files : files_t) (subs : subdirs_t)
           (target_basename : string) : option string :=
  if exists_ files subs target_basename then
    next_available_name files subs
      (PurePath.stem target_basename) (PurePath.suffix target_basename)
  else Some target_basename.

Definition dry_run_line (file target : string) : string :=
  "[DRY-RUN] " ++ file ++ " -> " ++ target.

Definition renamed_line (file target : string) : string :=
  "Renamed: " ++ file ++ " -> " ++ target.

(** The body of the [for] loop, for the entry [file] of the directory
    whose current non-directory entries are [files]. Every path here is
    in that directory, so a path is its final component;
    [file.with_name] gives a target in the same directory (the target
    of an enumerated file ends in [.conf], so it is a name
    [with_name] accepts). *)
Definition visit (w : bool) (subs : subdirs_t) (dry_run : bool)
           (file : string) (files : files_t) (rs : run_state)
  : files_t * run_state * status :=
  if negb (is_file files file) then (files, rs, Normal)
  else
    match compute_target_name file with
    | None => (files, count_skipped rs, Normal)
    | Some target_basename =>
        match final_target files subs target_basename with
        | None => (files, rs, OutOfFuel)
        | Some target =>
            if dry_run then
              (files, count_renamed (print (dry_run_line file target) rs),
               Normal)
            else
              match rename w files subs file target with
              | inr e => (files, rs, Raised e)
              | inl files' =>
                  (files',
                   count_renamed (print (renamed_line file target) rs),
                   Normal)
              end
        end
    end.

(** The [for] loop over the matches of one directory; an exception ends
    it at once. *)
Fixpoint visit_all (w : bool) (subs : subdirs_t) (dry_run : bool)
         (matches : list string) (files : files_t) (rs : run_state)
  : files_t * run_state * status :=
  match matches with
  | [] => (files, rs, Normal)
  | file :: rest =>
      match visit w subs dry_run file files rs with
      | (files', rs', Normal) => visit_all w subs dry_run rest files' rs'
      | stopped => stopped
      end
  end.

(** [directory.glob('*.conf')]: the entries of the directory, taken when
    the iteration starts, whose name matches. *)
Definition glob_conf (files : files_t) (subs : subdirs_t) : list string :=
  filter PyStr.matches_conf (names files subs).

(** Walking the subdirectories in turn with [walk], the state going from
    one to the next; an exception in one ends the walk. *)
Definition walk_subdirs
           (walk : tree -> run_state -> tree * run_state * status)
  : subdirs_t -> run_state -> subdirs_t * run_state * status :=
  fix go (l : subdirs_t) (rs : run_state) :=
    match l with
    | [] => ([], rs, Normal)
    | (n, sub) :: l' =>
        match walk sub rs with
        | (sub', rs', Normal) =>
            let '(l'', rs'', st) := go l' rs' in ((n, sub') :: l'', rs'', st)
        | (sub', rs', st) => ((n, sub') :: l', rs', st)
        end
    end.

(** The iteration of [rename_in_directory] from the state [rs].
    [root.glob] yields the matches of [root] alone. [root.rglob] yields
    the matches of a directory, then walks its subdirectories in turn,
    each one scanned when the walk reaches it. *)
Fixpoint rename_walk (recursive dry_run : bool) (root : tree)
         (rs : run_state) {struct root} : tree * run_state * status :=
  match root with
  | Dir w files subs =>
      match visit_all w subs dry_run (glob_conf files subs) files rs with
      | (files', rs1, Normal) =>
          if recursive then
            let '(subs', rs2, st) :=
              walk_subdirs (rename_walk recursive dry_run) subs rs1 in
            (Dir w files' subs', rs2, st)
          else (Dir w files' subs, rs1, Normal)
      | (files', rs1, st) => (Dir w files' subs, rs1, st)
      end
  end.

(** [rename_in_directory(root, recursive, dry_run)], with [out] what is
    on standard output when it is called. The counters start at zero; the
    pair [(renamed, skipped)] it returns is read off the final state. *)
Definition rename_in_directory (root : tree) (recursive dry_run : bool)
           (out : list string) : tree * run_state * status :=
  rename_walk recursive dry_run root (mkRun 0 0 out).

(* ================================================================== *)
(** ** The entry point *)
(* ================================================================== *)

(** The parsed command line: [Path(args.path)] as [pathlib] holds it,
    that is whether it is absolute and its parts ([..] is kept, [.] and
    empty parts are dropped when the path is read), and the two
    flags. *)
Record args : Type := mkArgs {
  absolute : bool;
  path : list string;
  recursive : bool;
  dry_run : bool
}.

(** The file system from its top, the position of the current
    directory in it, and the two output streams. *)
Record world : Type := mkWorld {
  fs : tree;
  cwd : list string;
  w_out : list string;
  w_err : list string
}.

(** How [main] ends. *)
Inductive outcome : Type :=
| Return (code : Z)
| Uncaught (e : exn)
| Hang.

(** [str(root)] *)
Definition path_str (a : args) : string :=
  (if absolute a then "/" else EmptyString) ++
  match path a with
  | [] => if absolute a then EmptyString else "."
  | _ => String.concat "/" (path a)
  end.

Definition summary_line (dry_run : bool) (rn sk : nat) : string :=
  (if dry_run then "Dry-run complete." else "Done.")
  ++ " Renamed: " ++ PyStr.str_of_int rn
  ++ "; Unchanged: " ++ PyStr.str_of_int sk ++ ".".

Definition error_line (a : args) : string :=
  "Error: '" ++ path_str a ++ "' is not a directory".

(** [root.is_dir()], with the directory: its position and what it
    holds. [None] when the path leads to no directory. *)
Definition root_dir (wd : world) (a : args) : option (list string * tree) :=
  match locate (fs wd) (if absolute a then [] else cwd wd) (path a) with
  | Some pos =>
      match resolve (fs wd) pos with
      | Some root => Some (pos, root)
      | None => None
      end
  | None => None
  end.

(** [main(argv)] after [argparse] has read [argv] into [a]. *)
Definition main (a : args) (wd : world) : world * outcome :=
  match root_dir wd a with
  | None =>
      (mkWorld (fs wd) (cwd wd) (w_out wd) (w_err wd ++ [error_line a]),
       Return 1)
  | Some (pos, root) =>
      match rename_in_directory root (recursive a) (dry_run a) (w_out wd) with
      | (root', rs, Normal) =>
          (mkWorld (replace (fs wd) pos root') (cwd wd)
                   (stdout rs ++
                      [summary_line (dry_run a) (renamed rs) (skipped rs)])
                   (w_err wd),
           Return 0)
      | (root', rs, Raised e) =>
          (mkWorld (replace (fs wd) pos root') (cwd wd) (stdout rs)
                   (w_err wd),
           Uncaught e)
      | (root', rs, OutOfFuel) =>
          (mkWorld (replace (fs wd) pos root') (cwd wd) (stdout rs)
                   (w_err wd),
           Hang)
      end
  end.

(* ================================================================== *)
(** ** Vocabulary of the properties *)
(* ================================================================== *)

(** The stem has an [@]. *)
Definition has_at (name : string) : bool :=
  PyStr.contains "@" (PurePath.stem name).

(** A regular file the pass renames (or plans to), and one it leaves. *)
Definition to_rename (files : files_t) (name : string) : bool :=
  is_file files name && has_at name.

Definition to_skip (files : files_t) (name : string) : bool :=
  is_file files name && negb (has_at name).

(** No two names are the same. *)
Fixpoint nodup_names (l : list string) : bool :=
  match l with
  | [] => true
  | n :: l' => negb (mem n l') && nodup_names l'
  end.

(** None of the entries is a symbolic link. *)
Definition no_links (files : files_t) : bool :=
  forallb (fun e => match snd e with Link _ => false | _ => true end) files.

(** In the directories the pass goes through, no two entries share a
    name and there is no symbolic link. *)
Fixpoint plain (recursive : bool) (t : tree) : bool :=
  match t with
  | Dir _ files subs =>
      nodup_names (names files subs) && no_links files &&
      (if recursive then forallb (fun e => plain recursive (snd e)) subs
       else true)
  end.

(** Every directory the pass goes through is writable. *)
Fixpoint writable_all (recursive : bool) (t : tree) : bool :=
  match t with
  | Dir w _ subs =>
      w &&
      (if recursive then forallb (fun e => writable_all recursive (snd e)) subs
       else true)
  end.

(** How many of the enumerated entries satisfy [p], [p] being told the
    non-directory entries of the directory the entry is in. *)
Fixpoint count_conf (p : files_t -> string -> bool) (recursive : bool)
         (t : tree) : nat :=
  match t with
  | Dir _ files subs =>
      List.length (filter (p files) (glob_conf files subs)) +
      (if recursive
       then list_sum (map (fun e => count_conf p recursive (snd e)) subs)
       else 0)
  end.

(** The enumerated entries that are regular files. *)
Definition regular_conf_files (recursive : bool) (t : tree) : nat :=
  count_conf is_file recursive t.

(** The candidate names of the collision resolver: number [0] is
    [stem.ext], number [i] is [stem-i.ext]. *)
Definition candidate (stem ext : string) (i : nat) : string :=
  match i with
  | O => stem ++ ext
  | _ => stem ++ "-" ++ PyStr.str_of_int i ++ ext
  end.

(** The name the pass gives [file] in a directory whose entries are
    [files] and [subs]: lines 39 and 43 to 47. *)
Definition plan (files : files_t) (subs : subdirs_t) (file : string)
  : option string :=
  match compute_target_name file with
  | Some target_basename => final_target files subs target_basename
  | None => None
  end.

(** What a renaming does to the names of a directory. *)
Definition swap_name (src dst n : string) : string :=
  if String.eqb n src then dst else n.

(** The per-file line of either mode. *)
Definition file_line (dry_run : bool) (file target : string) : string :=
  if dry_run then dry_run_line file target else renamed_line file target.

(** What a dry run prints for the matches [l] of a directory whose
    entries are [files] and [subs]: every plan is made in that
    directory. *)
Definition dry_run_report (files : files_t) (subs : subdirs_t)
           (l : list string) : list string :=
  map (fun file =>
         match plan files subs file with
         | Some target => dry_run_line file target
         | None => EmptyString
         end)
      (filter (to_rename files) l).

(** The matches [l] of a directory are distinct entries of it, the
    entries are distinct and none is a symbolic link. *)
Definition tidy (subs : subdirs_t) (l : list string) (files : files_t)
  : Prop :=
  NoDup (names files subs) /\ NoDup l /\ incl l (names files subs) /\
  no_links files = true.

(** A per-file line of the report, in either mode. *)
Definition report_line (dry_run : bool) (line : string) : Prop :=
  exists file target, line = file_line dry_run file target.

(** From [rs] to [rs']: some per-file lines were printed, one for each
    file counted as renamed. *)
Definition reported (dry_run : bool) (rs rs' : run_state) : Prop :=
  exists lines,
    stdout rs' = (stdout rs ++ lines)%list /\
    renamed rs' = renamed rs + List.length lines /\
    Forall (report_line dry_run) lines.

(** The tree after a pass: a dry run leaves it as it was, a real pass
    leaves no enumerated regular file with an [@] in its stem. *)
Definition after (dry_run recursive : bool) (t t' : tree) : Prop :=
  if dry_run then t' = t else count_conf to_rename recursive t' = 0.




(** The tree with the names of its non-directory entries erased: what
    is left is, directory by directory, how many entries there are, of
    which kind, and the subdirectories under their names. *)
Fixpoint skeleton (t : tree) : tree :=
  match t with
  | Dir w files subs =>
      Dir w (map (fun e => (EmptyString, snd e)) files)
          (map (fun e => (fst e, skeleton (snd e))) subs)
  end.

(** The names a dry run reports for the matches [l], and what a real
    pass prints if it gives every file the name planned in the directory
    as it was at the start. *)
Definition planned_targets (files : files_t) (subs : subdirs_t)
           (l : list string) : list (option string) :=
  map (plan files subs) (filter (to_rename files) l).

Definition real_report (files : files_t) (subs : subdirs_t)
           (l : list string) : list string :=
  map (fun file =>
         match plan files subs file with
         | Some target => renamed_line file target
         | None => EmptyString
         end)
      (filter (to_rename files) l).

(** An entry the pass has no reason to touch: it is not a regular file,
    or its name does not match, or its stem has no [@]. *)
Definition left_alone (files : files_t) (n : string) : bool :=
  negb (to_rename files n && PyStr.matches_conf n).

(** [t'] has, at every path where [t] has a directory, a directory with
    the same flag, the same subdirectory names, as many non-directory
    entries, and every entry of [t] that is left alone, under its name
    and with its kind. *)
Definition keeps_entries (t t' : tree) : Prop :=
  forall p w files subs,
    resolve t p = Some (Dir w files subs) ->
    exists files' subs',
      resolve t' p = Some (Dir w files' subs') /\
      map fst subs' = map fst subs /\
      List.length files' = List.length files /\
      forall n k,
        lookup n files = Some k -> left_alone files n = true ->
        lookup n files' = Some k.

(** What the walk of a subdirectory keeps. *)
Definition kept (r : bool) (t t' : tree) : Prop :=
  (plain r t = true -> plain r t' = true) /\
  skeleton t' = skeleton t /\
  keeps_entries t t'.

(** A per-file line that tells of an enumerated file with an [@] in its
    stem and of a new name without any [@]. *)
Definition honest_line (dry_run : bool) (line : string) : Prop :=
  exists file target,
    line = file_line dry_run file target /\
    PyStr.matches_conf file = true /\
    has_at file = true /\
    PyStr.contains "@" target = false.

(** From [rs] to [rs'], only such lines were printed. *)
Definition honestly_reported (dry_run : bool) (rs rs' : run_state) : Prop :=
  exists lines,
    stdout rs' = (stdout rs ++ lines)%list /\
    Forall (honest_line dry_run) lines.

(** No two of the planned names are the same. *)
Definition same_target (a b : option string) : bool :=
  match a, b with
  | Some x, Some y => String.eqb x y
  | None, None => true
  | _, _ => false
  end.

Fixpoint distinct_targets (l : list (option string)) : bool :=
  match l with
  | [] => true
  | x :: l' => negb (existsb (same_target x) l') && distinct_targets l'
  end.

(** In every directory the pass goes through, the names planned in the
    directory as it is are all different. *)
Fixpoint distinct_plans (recursive : bool) (t : tree) : bool :=
  match t with
  | Dir _ files subs =>
      distinct_targets (planned_targets files subs (glob_conf files subs)) &&
      (if recursive
       then forallb (fun e => distinct_plans recursive (snd e)) subs
       else true)
  end.

(** The per-file lines of a pass in which every file gets the name
    planned in its directory as it was before the pass: the lines of a
    directory, then those of its subdirectories in turn. *)
Fixpoint pass_report (dry_run recursive : bool) (t : tree) : list string :=
  match t with
  | Dir _ files subs =>
      (if dry_run then dry_run_report files subs (glob_conf files subs)
       else real_report files subs (glob_conf files subs))
      ++ (if recursive
          then flat_map (fun e => pass_report dry_run recursive (snd e)) subs
          else [])
  end.

(** The entries of a directory with every file to rename among the
    matches [l] under the name planned for it in the directory as it
    is. *)
Definition planned_names (files : files_t) (subs : subdirs_t)
           (l : list string) : files_t :=
  map (fun e =>
         if mem (fst e) l && to_rename files (fst e)
         then match plan files subs (fst e) with
              | Some target => (target, snd e)
              | None => e
              end
         else e) files.

Definition planned_files (files : files_t) (subs : subdirs_t) : files_t :=
  planned_names files subs (glob_conf files subs).

(** The tree in which every file to rename carries the name planned in
    its directory as it was before the pass. *)
Fixpoint planned_tree (recursive : bool) (t : tree) : tree :=
  match t with
  | Dir w files subs =>
      Dir w (planned_files files subs)
          (if recursive
           then map (fun e => (fst e, planned_tree recursive (snd e))) subs
           else subs)
  end.

(* ================================================================== *)
(** ** The script on a few inputs *)
(* ================================================================== *)

Example stem_mail :
  PurePath.stem "mail@example.com.conf" = "mail@example.com".
Proof. reflexivity. Qed.

Example suffix_mail : PurePath.suffix "mail@example.com.conf" = ".conf".
Proof. reflexivity. Qed.

Example stem_hidden : PurePath.stem ".conf" = ".conf".
Proof. reflexivity. Qed.

Example suffix_hidden : PurePath.suffix ".conf" = EmptyString.
Proof. reflexivity. Qed.

Example target_mail :
  compute_target_name "mail@example.com.conf" = Some "mail.conf".
Proof. reflexivity. Qed.

Example target_plain : compute_target_name "plain.conf" = None.
Proof. reflexivity. Qed.

Example target_two_ats : compute_target_name "a@b@c.conf" = Some "a.conf".
Proof. reflexivity. Qed.

Example third_candidate :
  next_available_name
    [("a.conf", Regular); ("a-1.conf", Regular); ("a-2.conf", Special)]
    [("a-3.conf", Dir true [] [])] "a" ".conf"
  = Some "a-4.conf".
Proof. reflexivity. Qed.

Example run_mail :
  main (mkArgs false ["d"] false false)
       (mkWorld (Dir true []
                     [("d", Dir true [("mail@example.com.conf", Regular)] [])])
                [] [] [])
  = (mkWorld (Dir true [] [("d", Dir true [("mail.conf", Regular)] [])]) []
             ["Renamed: mail@example.com.conf -> mail.conf";
              "Done. Renamed: 1; Unchanged: 0."]
             [],
     Return 0).
Proof. reflexivity. Qed.

Example run_plain :
  main (mkArgs false [] false false)
       (mkWorld (Dir true [("plain.conf", Regular)] []) [] [] [])
  = (mkWorld (Dir true [("plain.conf", Regular)] []) []
             ["Done. Renamed: 0; Unchanged: 1."] [],
     Return 0).
Proof. reflexivity. Qed.

Example run_on_a_file :
  main (mkArgs false ["plain.conf"] false true)
       (mkWorld (Dir true [("plain.conf", Regular)] []) [] [] [])
  = (mkWorld (Dir true [("plain.conf", Regular)] []) [] []
             ["Error: 'plain.conf' is not a directory"],
     Return 1).
Proof. reflexivity. Qed.

Example run_from_below :
  main (mkArgs false [".."; "confs"] false false)
       (mkWorld (Dir true []
                     [("work", Dir true [] []);
                      ("confs", Dir true [("a@x.conf", Regular)] [])])
                ["work"] [] [])
  = (mkWorld (Dir true []
                  [("work", Dir true [] []);
                   ("confs", Dir true [("a.conf", Regular)] [])])
             ["work"]
             ["Renamed: a@x.conf -> a.conf";
              "Done. Renamed: 1; Unchanged: 0."]
             [],
     Return 0).
Proof. reflexivity. Qed.

Example run_through_a_link :
  main (mkArgs true ["current"] false true)
       (mkWorld (Dir true [("current", Link "v2")]
                     [("v2", Dir true [("a@x.conf", Link "b.conf");
                                       ("b.conf", Regular)] [])])
                [] [] [])
  = (mkWorld (Dir true [("current", Link "v2")]
                  [("v2", Dir true [("a@x.conf", Link "b.conf");
                                    ("b.conf", Regular)] [])])
             []
             ["[DRY-RUN] a@x.conf -> a.conf";
              "Dry-run complete. Renamed: 1; Unchanged: 1."]
             [],
     Return 0).
Proof. reflexivity. Qed.

Example dangling_link_is_free :
  exists_ [("a.conf", Link "gone")] [] "a.conf" = false /\
  is_file [("a.conf", Link "gone")] "a.conf" = false /\
  rename true [("a@x.conf", Regular); ("a.conf", Link "gone")] []
         "a@x.conf" "a.conf"
  = inl [("a.conf", Regular)].
Proof. repeat split. Qed.

Example run_recursive_flag :
  fst (fst (rename_in_directory
              (Dir true [] [("d", Dir true [("q@r.conf", Regular)] [])])
              false false []))
  = Dir true [] [("d", Dir true [("q@r.conf", Regular)] [])] /\
  fst (fst (rename_in_directory
              (Dir true [] [("d", Dir true [("q@r.conf", Regular)] [])])
              true false []))
  = Dir true [] [("d", Dir true [("q.conf", Regular)] [])].
Proof. split; reflexivity. Qed.

(* ================================================================== *)
(** ** Facts on strings *)
(* ================================================================== *)

Module PyStrFacts.
Import PyStr.

Lemma length_app (a b : string) :
  String.length (a ++ b) = String.length a + String.length b.
Proof. induction a as [|c a IH]; simpl; [reflexivity | now rewrite IH]. Qed.

Lemma app_assoc (a b c : string) : (a ++ b) ++ c = a ++ (b ++ c).
Proof. induction a as [|x a IH]; simpl; [reflexivity | now rewrite IH]. Qed.

Lemma app_nil_r (a : string) : a ++ EmptyString = a.
Proof. induction a as [|x a IH]; simpl; [reflexivity | now rewrite IH]. Qed.

Lemma app_inv_head (a b c : string) : a ++ b = a ++ c -> b = c.
Proof.
  induction a as [|x a IH]; simpl; intros H; [assumption|].
  injection H as H. now apply IH.
Qed.

Lemma chars_app (a b : string) :
  list_ascii_of_string (a ++ b) =
  (list_ascii_of_string a ++ list_ascii_of_string b)%list.
Proof. induction a as [|x a IH]; simpl; [reflexivity | now rewrite IH]. Qed.

Lemma chars_inj (a b : string) :
  list_ascii_of_string a = list_ascii_of_string b -> a = b.
Proof.
  intros H.
  rewrite <- (string_of_list_ascii_of_string a),
          <- (string_of_list_ascii_of_string b).
  now rewrite H.
Qed.

Lemma app_inv_tail (a b c : string) : a ++ c = b ++ c -> a = b.
Proof.
  intros H. apply chars_inj.
  apply (List.app_inv_tail (list_ascii_of_string c)).
  now rewrite <- !chars_app, H.
Qed.

Lemma contains_app (c : ascii) (a b : string) :
  contains c (a ++ b) = contains c a || contains c b.
Proof.
  induction a as [|x a IH]; simpl; [reflexivity|].
  now rewrite IH, orb_assoc.
Qed.

(** ** [cut] and [split1] *)

Lemma cut_none (c : ascii) (s : string) :
  cut c s = None <-> contains c s = false.
Proof.
  induction s as [|a s IH]; simpl; [tauto|].
  destruct (Ascii.eqb a c); simpl.
  - split; discriminate.
  - destruct (cut c s) as [[p q]|].
    + split; [discriminate|]. intros H. apply IH in H. discriminate.
    + split; [|reflexivity]. intros _. now apply IH.
Qed.

Lemma cut_some (c : ascii) (s p q : string) :
  cut c s = Some (p, q) ->
  s = p ++ String c q /\ contains c p = false.
Proof.
  revert p q. induction s as [|a s IH]; simpl; intros p q H.
  - discriminate.
  - destruct (Ascii.eqb a c) eqn:E.
    + apply Ascii.eqb_eq in E. subst a.
      injection H as <- <-. now split.
    + destruct (cut c s) as [[p' q']|]; [|discriminate].
      injection H as <- <-.
      destruct (IH p' q' eq_refl) as [-> Hp].
      simpl. now rewrite E.
Qed.

Lemma cut_first (c : ascii) (p q : string) :
  contains c p = false -> cut c (p ++ String c q) = Some (p, q).
Proof.
  induction p as [|a p IH]; simpl; intros H.
  - now rewrite Ascii.eqb_refl.
  - apply orb_false_iff in H as [Ha Hp].
    now rewrite Ha, IH.
Qed.

(** [s.split(c, 1)[0]] is [s] itself exactly when [c] is not in [s]. *)
Lemma item0_split1_same (c : ascii) (s : string) :
  String.eqb (item0 (split1 c s)) s = negb (contains c s).
Proof.
  unfold split1, item0.
  destruct (cut c s) as [[p q]|] eqn:E.
  - destruct (cut_some _ _ _ _ E) as [Hs Hp]. simpl.
    assert (contains c s = true) as ->.
    { rewrite Hs, contains_app. simpl.
      now rewrite Ascii.eqb_refl, orb_true_r. }
    simpl. apply String.eqb_neq. intros Heq.
    apply (f_equal String.length) in Hs.
    rewrite length_app, <- Heq in Hs. simpl in Hs. lia.
  - apply cut_none in E. rewrite E. simpl. apply String.eqb_refl.
Qed.

(** ** [rfind] *)

Lemma rfind_from_absent (c : ascii) (s : string) (i : Z) :
  contains c s = false -> rfind_from c s i = (-1)%Z.
Proof.
  revert i. induction s as [|a s IH]; simpl; intros i H; [reflexivity|].
  apply orb_false_iff in H as [Ha Hs].
  now rewrite (IH _ Hs), Ha.
Qed.

Lemma rfind_from_last (c : ascii) (p q : string) (i : Z) :
  (0 <= i)%Z -> contains c q = false ->
  rfind_from c (p ++ String c q) i = (i + len p)%Z.
Proof.
  revert i. induction p as [|a p IH]; simpl; intros i Hi Hq.
  - rewrite (rfind_from_absent _ _ _ Hq). simpl.
    rewrite Ascii.eqb_refl. unfold len. simpl. lia.
  - rewrite IH by (assumption || lia).
    unfold len. simpl String.length.
    replace (0 <=? i + 1 + Z.of_nat (String.length p))%Z with true
      by (symmetry; apply Z.leb_le; lia).
    lia.
Qed.

(** ** Slices *)

Lemma substring_all (s : string) : substring 0 (String.length s) s = s.
Proof. induction s as [|a s IH]; simpl; [reflexivity | now rewrite IH]. Qed.

Lemma substring_head (p q : string) :
  substring 0 (String.length p) (p ++ q) = p.
Proof.
  induction p as [|a p IH]; simpl.
  - now destruct q.
  - now rewrite IH.
Qed.

Lemma substring_tail (p q : string) :
  substring (String.length p) (String.length q) (p ++ q) = q.
Proof.
  induction p as [|a p IH]; simpl; [apply substring_all | exact IH].
Qed.

Lemma contains_substring0 (c : ascii) (n : nat) (s : string) :
  contains c (substring 0 n s) = true -> contains c s = true.
Proof.
  revert n. induction s as [|a s IH]; intros [|n]; simpl; try discriminate.
  intros H. apply orb_true_iff in H as [H|H].
  - now rewrite H.
  - rewrite (IH _ H). apply orb_true_r.
Qed.

(** ** [endswith] *)

Lemma endswith_app (p suf : string) : endswith (p ++ suf) suf = true.
Proof.
  induction p as [|a p IH]; simpl.
  - destruct suf; cbn [endswith]; now rewrite String.eqb_refl.
  - rewrite IH. apply orb_true_r.
Qed.

Lemma endswith_inv (s suf : string) :
  endswith s suf = true -> exists p, s = p ++ suf.
Proof.
  induction s as [|a s IH]; cbn [endswith]; intros H.
  - rewrite orb_false_r in H. apply String.eqb_eq in H.
    exists EmptyString. now subst.
  - apply orb_true_iff in H as [H|H].
    + apply String.eqb_eq in H. exists EmptyString. now subst.
    + destruct (IH H) as [p ->]. now exists (String a p).
Qed.

(** ** Decimal numerals *)

Lemma str_of_int_inj (n m : nat) : str_of_int n = str_of_int m -> n = m.
Proof.
  unfold str_of_int. intros H.
  apply Unsigned.to_uint_inj.
  assert (Some (Nat.to_uint n) = Some (Nat.to_uint m)) as E.
  { rewrite <- (NilEmpty.usu (Nat.to_uint n)),
            <- (NilEmpty.usu (Nat.to_uint m)).
    now rewrite H. }
  now injection E.
Qed.

Lemma digits_clean (c : ascii) (d : uint) :
  (nat_of_ascii c < 48 \/ 57 < nat_of_ascii c) ->
  contains c (NilEmpty.string_of_uint d) = false.
Proof.
  intros Hc.
  induction d as [|d IH|d IH|d IH|d IH|d IH|d IH|d IH|d IH|d IH|d IH];
    cbn [NilEmpty.string_of_uint contains]; [reflexivity|..];
    rewrite IH, orb_false_r;
    apply Ascii.eqb_neq; intros <-;
    match type of Hc with
    | context [nat_of_ascii ?a] =>
        let v := eval vm_compute in (nat_of_ascii a) in
        change (nat_of_ascii a) with v in Hc
    end; lia.
Qed.

End PyStrFacts.

(* ================================================================== *)
(** ** Facts on stems and suffixes *)
(* ================================================================== *)

Module PathFacts.
Import PyStr PyStrFacts PurePath.

Lemma substring_split (s : string) (n : nat) :
  n <= String.length s ->
  substring 0 n s ++ substring n (String.length s - n) s = s.
Proof.
  revert n. induction s as [|a s IH]; intros [|n] Hn; simpl in *.
  - reflexivity.
  - lia.
  - now rewrite substring_all.
  - rewrite IH by lia. reflexivity.
Qed.

(** A name is its stem followed by its suffix. *)
Lemma stem_suffix (name : string) : stem name ++ suffix name = name.
Proof.
  unfold stem, suffix.
  destruct ((0 <? rfind "." name) && (rfind "." name <? len name - 1))%Z
    eqn:E.
  - apply andb_true_iff in E as [E1 E2].
    apply Z.ltb_lt in E1, E2. unfold len in E2.
    apply substring_split. lia.
  - apply app_nil_r.
Qed.

(** The name [b.conf] with a non-empty [b] has stem [b] and suffix
    [.conf]. *)
Lemma rfind_conf (b : string) : rfind "." (b ++ ".conf") = len b.
Proof.
  unfold rfind.
  change ".conf" with (String "." "conf").
  rewrite rfind_from_last by (reflexivity || lia). lia.
Qed.

Lemma conf_test (b : string) :
  ((0 <? rfind "." (b ++ ".conf")) &&
   (rfind "." (b ++ ".conf") <? len (b ++ ".conf") - 1))%Z
  = negb (String.eqb b EmptyString).
Proof.
  rewrite rfind_conf. unfold len. rewrite length_app.
  destruct b as [|a b]; simpl String.length.
  - reflexivity.
  - simpl negb.
    apply andb_true_iff; split; apply Z.ltb_lt; lia.
Qed.

Lemma stem_conf (b : string) : b <> EmptyString -> stem (b ++ ".conf") = b.
Proof.
  intros Hb. unfold stem. rewrite conf_test.
  apply String.eqb_neq in Hb. rewrite Hb. simpl.
  rewrite rfind_conf. unfold slice_to, len.
  rewrite Nat2Z.id. apply substring_head.
Qed.

Lemma suffix_conf (b : string) : b <> EmptyString -> suffix (b ++ ".conf") = ".conf".
Proof.
  intros Hb. unfold suffix. rewrite conf_test.
  apply String.eqb_neq in Hb. rewrite Hb. simpl.
  rewrite rfind_conf. unfold slice_from, len.
  rewrite Nat2Z.id, length_app.
  replace (String.length b + String.length ".conf" - String.length b)
    with (String.length ".conf") by lia.
  apply substring_tail.
Qed.

(** What the stem contains, the name contains. *)
Lemma contains_stem (c : ascii) (name : string) :
  contains c (stem name) = true -> contains c name = true.
Proof.
  unfold stem.
  destruct ((0 <? rfind "." name) && (rfind "." name <? len name - 1))%Z.
  - apply contains_substring0.
  - trivial.
Qed.

(** An enumerated name with an [@] in its stem is [b.conf] for a
    non-empty [b], which is its stem. *)
Lemma conf_with_at (name : string) :
  matches_conf name = true ->
  contains "@" (stem name) = true ->
  exists b, name = b ++ ".conf" /\ b <> EmptyString /\
            stem name = b /\ suffix name = ".conf".
Proof.
  intros Hm Hat. apply endswith_inv in Hm as [b ->].
  destruct (string_dec b EmptyString) as [->|Hb].
  - discriminate Hat.
  - exists b. repeat split; auto using stem_conf, suffix_conf.
Qed.

End PathFacts.

(* ================================================================== *)
(** ** Facts on the name transformer *)
(* ================================================================== *)

Section Transformer.
Import PyStr PyStrFacts PurePath PathFacts.

Lemma compute_target_name_none (src : string) :
  compute_target_name src = None <-> has_at src = false.
Proof.
  unfold compute_target_name, has_at.
  rewrite item0_split1_same.
  destruct (contains "@" (stem src)); simpl; split;
    congruence || discriminate.
Qed.

Lemma compute_target_name_some (src : string) :
  has_at src = true ->
  exists pre rest,
    stem src = pre ++ String "@" rest /\
    contains "@" pre = false /\
    compute_target_name src = Some (pre ++ suffix src).
Proof.
  unfold has_at, compute_target_name. intros Hat.
  rewrite item0_split1_same, Hat. simpl.
  unfold split1.
  destruct (cut "@" (stem src)) as [[p q]|] eqn:E.
  - destruct (cut_some _ _ _ _ E) as [Hs Hp].
    exists p, q. now repeat split.
  - apply cut_none in E. congruence.
Qed.

(** The target of an enumerated name: an [@]-free prefix of the stem,
    then [.conf]. *)
Lemma compute_target_name_conf (file target : string) :
  matches_conf file = true ->
  compute_target_name file = Some target ->
  exists pre, target = pre ++ ".conf" /\ contains "@" pre = false.
Proof.
  intros Hm Ht.
  destruct (has_at file) eqn:Hat.
  - destruct (conf_with_at _ Hm Hat) as (b & _ & _ & _ & Hsuf).
    destruct (compute_target_name_some _ Hat) as (pre & rest & _ & Hp & E).
    rewrite E in Ht. injection Ht as <-.
    exists pre. now rewrite Hsuf.
  - apply compute_target_name_none in Hat. congruence.
Qed.

End Transformer.

(* ================================================================== *)
(** ** Facts on directories *)
(* ================================================================== *)

Module FSFacts.

Lemma mem_In (n : string) (l : list string) : mem n l = true <-> In n l.
Proof.
  unfold mem. rewrite existsb_exists. split.
  - intros (x & Hx & E). apply String.eqb_eq in E. now subst.
  - intros H. exists n. split; [assumption | apply String.eqb_refl].
Qed.

Lemma mem_not_In (n : string) (l : list string) :
  mem n l = false <-> ~ In n l.
Proof.
  rewrite <- mem_In. destruct (mem n l); split; congruence.
Qed.

Lemma nodup_names_NoDup (l : list string) :
  nodup_names l = true <-> NoDup l.
Proof.
  induction l as [|n l IH]; simpl.
  - split; [constructor | reflexivity].
  - rewrite andb_true_iff, negb_true_iff, mem_not_In, IH.
    split.
    + intros [H1 H2]. now constructor.
    + intros H. inversion H; subst. now split.
Qed.

Lemma lookup_In {A} (n : string) (l : list (string * A)) (x : A) :
  lookup n l = Some x -> In n (map fst l).
Proof.
  induction l as [|[m y] l IH]; simpl; [discriminate|].
  destruct (String.eqb m n) eqn:E.
  - apply String.eqb_eq in E. now left.
  - intros H. right. now apply IH.
Qed.

Lemma lookup_not_In {A} (n : string) (l : list (string * A)) :
  ~ In n (map fst l) -> lookup n l = None.
Proof.
  induction l as [|[m y] l IH]; simpl; [reflexivity|].
  intros H. destruct (String.eqb m n) eqn:E.
  - apply String.eqb_eq in E. tauto.
  - apply IH. tauto.
Qed.

(** ** Following links *)

Lemma chase_not_link (hops : nat) (files : files_t) (n : string) :
  (forall target, lookup n files <> Some (Link target)) ->
  chase hops files n = Some n.
Proof.
  intros H. destruct hops; simpl;
    destruct (lookup n files) as [[| |target]|] eqn:E; try reflexivity;
    now destruct (H target).
Qed.

Lemma chase_link (hops : nat) (files : files_t) (n target : string) :
  lookup n files = Some (Link target) ->
  chase (S hops) files n = chase hops files target.
Proof. intros H. simpl. now rewrite H. Qed.

(** What exists has its name in the directory, link or not. *)
Lemma exists_In (files : files_t) (subs : subdirs_t) (n : string) :
  exists_ files subs n = true -> In n (names files subs).
Proof.
  unfold exists_, names. intros H.
  destruct (lookup n files) as [[| |target]|] eqn:E.
  4: { rewrite chase_not_link in H by congruence. now apply mem_In. }
  all: apply in_or_app; left; eauto using lookup_In.
Qed.

Lemma is_file_In (files : files_t) (subs : subdirs_t) (n : string) :
  is_file files n = true -> In n (names files subs).
Proof.
  unfold is_file, names. intros H. apply in_or_app. left.
  destruct (lookup n files) as [k|] eqn:E; [eauto using lookup_In|].
  rewrite chase_not_link, E in H by congruence. discriminate.
Qed.

Lemma is_file_lookup (files : files_t) (n : string) :
  is_file files n = true -> exists k, lookup n files = Some k.
Proof.
  unfold is_file. intros H.
  destruct (lookup n files) as [k|] eqn:E; [now exists k|].
  rewrite chase_not_link, E in H by congruence. discriminate.
Qed.

(** ** Directories without links *)

Lemma no_links_lookup (files : files_t) (n target : string) :
  no_links files = true -> lookup n files <> Some (Link target).
Proof.
  unfold no_links. induction files as [|[m k] l IH]; simpl; [discriminate|].
  rewrite andb_true_iff. intros [Hk Hl].
  destruct (String.eqb m n); [|now apply IH].
  intros [= ->]. discriminate.
Qed.

Lemma chase_plain (hops : nat) (files : files_t) (n : string) :
  no_links files = true -> chase hops files n = Some n.
Proof.
  intros H. apply chase_not_link. intros target.
  now apply no_links_lookup.
Qed.

Lemma exists_plain (files : files_t) (subs : subdirs_t) (n : string) :
  no_links files = true ->
  exists_ files subs n = mem n (names files subs).
Proof. intros H. unfold exists_. now rewrite chase_plain. Qed.

Lemma exists_plain_In (files : files_t) (subs : subdirs_t) (n : string) :
  no_links files = true ->
  exists_ files subs n = true <-> In n (names files subs).
Proof. intros H. rewrite exists_plain by assumption. apply mem_In. Qed.

Lemma exists_not_In (files : files_t) (subs : subdirs_t) (n : string) :
  no_links files = true ->
  exists_ files subs n = false <-> ~ In n (names files subs).
Proof. intros H. rewrite exists_plain by assumption. apply mem_not_In. Qed.

Lemma is_file_plain (files : files_t) (n : string) :
  no_links files = true ->
  is_file files n = match lookup n files with
                    | Some Regular => true
                    | _ => false
                    end.
Proof. intros H. unfold is_file. now rewrite chase_plain. Qed.

Lemma remove_absent (dst : string) (files : files_t) :
  ~ In dst (map fst files) -> remove dst files = files.
Proof.
  unfold remove. induction files as [|[m k] l IH]; simpl; [reflexivity|].
  intros H. destruct (String.eqb m dst) eqn:E.
  - apply String.eqb_eq in E. tauto.
  - simpl. f_equal. apply IH. tauto.
Qed.

(** ** Renaming an entry to a fresh name *)

Lemma names_relabel (src dst : string) (files : files_t) :
  map fst (relabel src dst files) = map (swap_name src dst) (map fst files).
Proof.
  unfold relabel, swap_name. rewrite !map_map. apply map_ext.
  intros [m k]. simpl. now destruct (String.eqb m src).
Qed.

Lemma swap_name_other (src dst : string) (l : list string) :
  ~ In src l -> map (swap_name src dst) l = l.
Proof.
  intros H. rewrite <- (map_id l) at 2. apply map_ext_in.
  intros n Hn. unfold swap_name.
  destruct (String.eqb n src) eqn:E; [|reflexivity].
  apply String.eqb_eq in E. now subst.
Qed.

Lemma lookup_relabel_other (src dst n : string) (files : files_t) :
  n <> src -> n <> dst ->
  lookup n (relabel src dst files) = lookup n files.
Proof.
  intros Hs Hd. induction files as [|[m k] l IH]; simpl; [reflexivity|].
  destruct (String.eqb m src) eqn:E; simpl.
  - apply String.eqb_eq in E. subst m.
    apply not_eq_sym in Hs, Hd.
    apply String.eqb_neq in Hs, Hd. now rewrite Hs, Hd.
  - now rewrite IH.
Qed.

Lemma lookup_relabel_src (src dst : string) (files : files_t) :
  src <> dst -> lookup src (relabel src dst files) = None.
Proof.
  intros H. apply lookup_not_In. rewrite names_relabel, in_map_iff.
  intros (n & E & _). unfold swap_name in E.
  destruct (String.eqb n src) eqn:En.
  - congruence.
  - apply String.eqb_neq in En. congruence.
Qed.

Lemma NoDup_app_disjoint {A} (l1 l2 : list A) (a : A) :
  NoDup (l1 ++ l2) -> In a l1 -> ~ In a l2.
Proof.
  induction l1 as [|x l1 IH]; simpl; intros Hnd Hin; [contradiction|].
  inversion Hnd as [|? ? Hx Hnd']; subst.
  destruct Hin as [->|Hin]; [|now apply IH].
  intros H. apply Hx. apply in_or_app. now right.
Qed.

(** Renaming to a name the directory does not have keeps its names
    distinct. *)
Lemma names_relabel_all (src dst : string) (files : files_t)
      (subs : subdirs_t) :
  NoDup (names files subs) -> In src (map fst files) ->
  names (relabel src dst files) subs
  = map (swap_name src dst) (names files subs).
Proof.
  unfold names. intros Hnd Hsrc.
  rewrite map_app, names_relabel. f_equal.
  symmetry. apply swap_name_other. intros Hin.
  exact (NoDup_app_disjoint _ _ _ Hnd Hsrc Hin).
Qed.

Lemma NoDup_relabel (src dst : string) (files : files_t) (subs : subdirs_t) :
  NoDup (names files subs) -> In src (map fst files) ->
  ~ In dst (names files subs) ->
  NoDup (names (relabel src dst files) subs).
Proof.
  intros Hnd Hsrc Hdst. rewrite names_relabel_all by assumption.
  apply Injective_map_NoDup_in; [|assumption].
  unfold swap_name. intros x y Hx Hy.
  destruct (String.eqb x src) eqn:Ex, (String.eqb y src) eqn:Ey;
    try apply String.eqb_eq in Ex; try apply String.eqb_eq in Ey;
    intros E; subst; tauto.
Qed.

Lemma no_links_remove (dst : string) (files : files_t) :
  no_links files = true -> no_links (remove dst files) = true.
Proof.
  unfold no_links, remove. rewrite !forallb_forall.
  intros H e He. apply filter_In in He as [He _]. now apply H.
Qed.

Lemma no_links_relabel (src dst : string) (files : files_t) :
  no_links files = true -> no_links (relabel src dst files) = true.
Proof.
  unfold no_links, relabel. rewrite !forallb_forall.
  intros H e He. apply in_map_iff in He as ([m k] & <- & Hin).
  specialize (H _ Hin). simpl in *. now destruct (String.eqb m src).
Qed.

Lemma In_relabel (src dst n : string) (files : files_t) (subs : subdirs_t) :
  NoDup (names files subs) -> In src (map fst files) ->
  In n (names files subs) -> n <> src ->
  In n (names (relabel src dst files) subs).
Proof.
  intros Hnd Hsrc Hn Hne. rewrite names_relabel_all by assumption.
  apply in_map_iff. exists n. split; [|assumption].
  unfold swap_name. apply String.eqb_neq in Hne. now rewrite Hne.
Qed.

End FSFacts.

(* ================================================================== *)
(** ** Facts on the collision resolver *)
(* ================================================================== *)

Section Resolver.
Import PyStr PyStrFacts FSFacts.

Variables (files : files_t) (subs : subdirs_t) (stem ext : string).

Local Abbreviation cand := (candidate stem ext).
Local Abbreviation taken := (exists_ files subs).

Lemma candidate_succ (k : nat) :
  stem ++ "-" ++ str_of_int (k + 1) ++ ext = cand (k + 1).
Proof. unfold cand. rewrite Nat.add_1_r. reflexivity. Qed.

(** Distinct numbers give distinct candidates. *)
Lemma candidate_inj (i j : nat) : cand i = cand j -> i = j.
Proof.
  assert (forall k, cand 0 <> cand (S k)) as Hzero.
  { intros k H. unfold cand, candidate in H.
    apply PyStrFacts.app_inv_head in H.
    apply (f_equal String.length) in H.
    rewrite !length_app in H. simpl in H. lia. }
  destruct i as [|i], j as [|j]; intros H.
  - reflexivity.
  - now apply Hzero in H.
  - symmetry in H. now apply Hzero in H.
  - unfold cand, candidate in H.
    apply PyStrFacts.app_inv_head in H. injection H as H.
    apply PyStrFacts.app_inv_tail in H.
    now apply str_of_int_inj.
Qed.

(** When the loop returns, it returns the first candidate, from the
    current one on, that the directory does not have. *)
Lemma next_available_loop_some (fuel k : nat) (c : string) :
  next_available_loop fuel files subs stem ext (cand k) (k + 1) = Some c ->
  exists j, k <= j /\ c = cand j /\ taken c = false /\
            forall m, k <= m < j -> taken (cand m) = true.
Proof.
  revert k. induction fuel as [|fuel IH]; intros k;
    cbn [next_available_loop];
    destruct (exists_ files subs (cand k)) eqn:E; try discriminate.
  - intros [= <-]. exists k. repeat split; auto. intros m Hm. lia.
  - rewrite candidate_succ.
    replace (k + 1 + 1) with ((k + 1) + 1) by lia.
    intros H. destruct (IH _ H) as (j & Hj & Hc & Hfree & Hbelow).
    exists j. repeat split; auto; [lia|].
    intros m Hm. destruct (Nat.eq_dec m k) as [->|Hne]; [exact E|].
    apply Hbelow. lia.
  - intros [= <-]. exists k. repeat split; auto. intros m Hm. lia.
Qed.

(** When the fuel runs out, every candidate tried is in the
    directory. *)
Lemma next_available_loop_none (fuel k : nat) :
  next_available_loop fuel files subs stem ext (cand k) (k + 1) = None ->
  forall m, k <= m <= k + fuel -> taken (cand m) = true.
Proof.
  revert k. induction fuel as [|fuel IH]; intros k;
    cbn [next_available_loop];
    destruct (exists_ files subs (cand k)) eqn:E; try discriminate.
  - intros _ m Hm. now replace m with k by lia.
  - rewrite candidate_succ. intros H m Hm.
    destruct (Nat.eq_dec m k) as [->|Hne]; [exact E|].
    apply (IH _ H). lia.
Qed.

(** The loop of [next_available_name] always ends: a directory of [n]
    entries cannot hold [n + 1] distinct candidates. *)
Lemma next_available_name_total :
  exists c, next_available_name files subs stem ext = Some c.
Proof.
  unfold next_available_name.
  destruct (next_available_loop _ files subs stem ext (stem ++ ext) 1)
    as [c|] eqn:E; [now exists c|].
  exfalso.
  pose proof (next_available_loop_none _ 0 E) as Hall.
  set (n := List.length (names files subs)) in *.
  assert (NoDup (map cand (seq 0 (S n)))) as Hnd.
  { apply Injective_map_NoDup_in; [|apply seq_NoDup].
    intros x y _ _. apply candidate_inj. }
  assert (incl (map cand (seq 0 (S n))) (names files subs)) as Hincl.
  { intros c Hc. apply in_map_iff in Hc as (m & <- & Hm).
    apply in_seq in Hm. apply exists_In. apply Hall. lia. }
  pose proof (NoDup_incl_length Hnd Hincl) as Hlen.
  rewrite length_map, length_seq in Hlen. fold n in Hlen. lia.
Qed.

Lemma next_available_name_spec (c : string) :
  next_available_name files subs stem ext = Some c ->
  exists j, c = cand j /\ taken c = false /\
            forall m, m < j -> taken (cand m) = true.
Proof.
  unfold next_available_name. intros H.
  destruct (next_available_loop_some _ 0 _ H) as (j & _ & Hc & Hf & Hb).
  exists j. repeat split; auto. intros m Hm. apply Hb. lia.
Qed.

End Resolver.

(* ================================================================== *)
(** ** Facts on the final name of a target *)
(* ================================================================== *)

Section FinalTarget.
Import PyStr PyStrFacts PurePath PathFacts FSFacts.

Variables (files : files_t) (subs : subdirs_t).

Lemma final_target_total (target : string) :
  exists final, final_target files subs target = Some final.
Proof.
  unfold final_target. destruct (exists_ files subs target).
  - apply next_available_name_total.
  - now exists target.
Qed.

(** The final name does not exist. *)
Lemma final_target_free (target final : string) :
  final_target files subs target = Some final ->
  exists_ files subs final = false.
Proof.
  unfold final_target. destruct (exists_ files subs target) eqn:E.
  - intros H. now apply next_available_name_spec in H as (j & _ & Hfree & _).
  - now intros [= <-].
Qed.

(** Without links, the final name is not in the directory. *)
Lemma final_target_fresh (target final : string) :
  no_links files = true ->
  final_target files subs target = Some final ->
  ~ In final (names files subs).
Proof.
  intros Hl H. apply exists_not_In; [assumption|].
  eauto using final_target_free.
Qed.

Lemma candidate_clean (c : ascii) (stem ext : string) (j : nat) :
  (nat_of_ascii c < 45 \/ 57 < nat_of_ascii c) ->
  contains c (stem ++ ext) = false ->
  contains c (candidate stem ext j) = false.
Proof.
  intros Hc H. destruct j as [|j]; [exact H|].
  unfold candidate. rewrite contains_app in H.
  apply orb_false_iff in H as [Hs He].
  rewrite !contains_app, Hs, He. cbn [contains].
  unfold str_of_int. rewrite digits_clean by lia.
  rewrite !orb_false_r.
  apply Ascii.eqb_neq. intros <-.
  change (nat_of_ascii "-") with 45 in Hc. lia.
Qed.

(** A target without [@] gets a final name without [@]. *)
Lemma final_target_clean (target final : string) :
  contains "@" target = false ->
  final_target files subs target = Some final ->
  contains "@" final = false.
Proof.
  unfold final_target. intros Ht.
  destruct (exists_ files subs target).
  - intros H. apply next_available_name_spec in H as (j & -> & _).
    apply candidate_clean.
    + change (nat_of_ascii "@") with 64. lia.
    + now rewrite stem_suffix.
  - now intros [= <-].
Qed.

(** What the pass plans for an enumerated file has no [@]. *)
Lemma plan_clean (file final : string) :
  matches_conf file = true ->
  plan files subs file = Some final ->
  contains "@" final = false.
Proof.
  unfold plan. intros Hm.
  destruct (compute_target_name file) as [t|] eqn:Et; [|discriminate].
  destruct (compute_target_name_conf _ _ Hm Et) as (pre & -> & Hpre).
  apply final_target_clean.
  now rewrite contains_app, Hpre.
Qed.

Lemma plan_fresh (file final : string) :
  no_links files = true ->
  plan files subs file = Some final -> ~ In final (names files subs).
Proof.
  unfold plan. destruct (compute_target_name file); [|discriminate].
  apply final_target_fresh.
Qed.

Lemma plan_total (file : string) :
  has_at file = true -> exists final, plan files subs file = Some final.
Proof.
  intros Hat. unfold plan.
  destruct (compute_target_name_some _ Hat) as (pre & rest & _ & _ & ->).
  apply final_target_total.
Qed.

Lemma plan_none (file : string) :
  has_at file = false -> plan files subs file = None.
Proof.
  intros Hat. unfold plan.
  apply compute_target_name_none in Hat. now rewrite Hat.
Qed.

Lemma has_at_clean (name : string) :
  contains "@" name = false -> has_at name = false.
Proof.
  unfold has_at. intros H.
  destruct (contains "@" (stem name)) eqn:E; [|reflexivity].
  apply contains_stem in E. congruence.
Qed.

End FinalTarget.

(* ================================================================== *)
(** ** Facts on one visit *)
(* ================================================================== *)

Section Visit.
Import PyStr PyStrFacts PurePath PathFacts FSFacts.

Variables (w : bool) (subs : subdirs_t).

(** [visit] in terms of [plan]. *)
Lemma visit_plan (dry : bool) (file : string) (files : files_t)
      (rs : run_state) :
  visit w subs dry file files rs =
  if negb (is_file files file) then (files, rs, Normal)
  else if negb (has_at file) then (files, count_skipped rs, Normal)
  else match plan files subs file with
       | None => (files, rs, OutOfFuel)
       | Some target =>
           if dry then
             (files, count_renamed (print (dry_run_line file target) rs),
              Normal)
           else
             match rename w files subs file target with
             | inr e => (files, rs, Raised e)
             | inl files' =>
                 (files',
                  count_renamed (print (renamed_line file target) rs),
                  Normal)
             end
       end.
Proof.
  unfold visit, plan. destruct (negb (is_file files file)); [reflexivity|].
  destruct (has_at file) eqn:Hat; simpl.
  - destruct (compute_target_name_some _ Hat) as (pre & rest & _ & _ & ->).
    reflexivity.
  - apply compute_target_name_none in Hat. now rewrite Hat.
Qed.

(** Renaming a regular file to a name the directory does not have. *)
Lemma rename_fresh (files : files_t) (src dst : string) :
  is_file files src = true -> ~ In dst (names files subs) ->
  rename w files subs src dst =
  if w then inl (relabel src dst files) else inr PermissionError.
Proof.
  intros Hf Hd. unfold rename.
  pose proof (is_file_In files subs src Hf) as Hsrc.
  destruct (is_file_lookup _ _ Hf) as (k & ->).
  destruct w; simpl; [|reflexivity].
  assert (~ In dst (map fst files) /\ ~ In dst (map fst subs)) as [H1 H2].
  { unfold names in Hd. rewrite in_app_iff in Hd. tauto. }
  apply mem_not_In in H2. rewrite H2.
  assert (src <> dst) as Hne by (intros ->; contradiction).
  apply String.eqb_neq in Hne. rewrite Hne.
  now rewrite remove_absent.
Qed.

Lemma visit_not_file (dry : bool) (file : string) (files : files_t)
      (rs : run_state) :
  is_file files file = false ->
  visit w subs dry file files rs = (files, rs, Normal).
Proof. intros H. rewrite visit_plan, H. reflexivity. Qed.

Lemma visit_skip (dry : bool) (file : string) (files : files_t)
      (rs : run_state) :
  to_skip files file = true ->
  visit w subs dry file files rs = (files, count_skipped rs, Normal).
Proof.
  unfold to_skip. intros H. apply andb_true_iff in H as [Hf Hat].
  rewrite visit_plan, Hf, Hat. reflexivity.
Qed.

Lemma visit_dry (file : string) (files : files_t) (rs : run_state) :
  to_rename files file = true ->
  exists target,
    plan files subs file = Some target /\
    visit w subs true file files rs =
    (files, count_renamed (print (dry_run_line file target) rs), Normal).
Proof.
  unfold to_rename. intros H. apply andb_true_iff in H as [Hf Hat].
  destruct (plan_total files subs _ Hat) as (target & Hp).
  exists target. split; [assumption|].
  rewrite visit_plan, Hf, Hat, Hp. reflexivity.
Qed.

Lemma visit_real (file : string) (files : files_t) (rs : run_state) :
  no_links files = true ->
  to_rename files file = true ->
  exists target,
    plan files subs file = Some target /\
    visit w subs false file files rs =
    if w then
      (relabel file target files,
       count_renamed (print (renamed_line file target) rs), Normal)
    else (files, rs, Raised PermissionError).
Proof.
  unfold to_rename. intros Hl H. apply andb_true_iff in H as [Hf Hat].
  destruct (plan_total files subs _ Hat) as (target & Hp).
  exists target. split; [assumption|].
  rewrite visit_plan, Hf, Hat, Hp. simpl.
  rewrite rename_fresh by eauto using plan_fresh.
  now destruct w.
Qed.

Lemma visit_real_ok (file : string) (files : files_t) (rs : run_state) :
  no_links files = true ->
  w = true -> to_rename files file = true ->
  exists target,
    plan files subs file = Some target /\
    visit w subs false file files rs =
    (relabel file target files,
     count_renamed (print (renamed_line file target) rs), Normal).
Proof.
  intros Hl Hw Hr.
  destruct (visit_real file files rs Hl Hr) as (target & Hp & Ev).
  exists target. split; [assumption|]. rewrite Ev, Hw. reflexivity.
Qed.

(** In a directory that is not writable the first file to rename
    raises, links or not: the permission is what [os.rename] checks
    first. *)
Lemma visit_real_denied (file : string) (files : files_t) (rs : run_state) :
  w = false -> to_rename files file = true ->
  visit w subs false file files rs = (files, rs, Raised PermissionError).
Proof.
  unfold to_rename. intros Hw H. apply andb_true_iff in H as [Hf Hat].
  destruct (plan_total files subs _ Hat) as (target & Hp).
  rewrite visit_plan, Hf, Hat, Hp. simpl. unfold rename.
  destruct (is_file_lookup _ _ Hf) as (k & ->).
  now rewrite Hw.
Qed.

(** The three cases of an entry. *)
Lemma entry_cases (files : files_t) (file : string) :
  is_file files file = false \/
  to_skip files file = true \/
  to_rename files file = true.
Proof.
  unfold to_skip, to_rename.
  destruct (is_file files file), (has_at file); auto.
Qed.

End Visit.

(* ================================================================== *)
(** ** Facts on the pass over one directory *)
(* ================================================================== *)

Section Pass.
Import PyStr PyStrFacts PurePath PathFacts FSFacts.

Variables (w : bool) (subs : subdirs_t).

Local Abbreviation run := (visit_all w subs).

Lemma visit_all_cons (dry : bool) (file : string) (rest : list string)
      (files files1 : files_t) (rs rs1 : run_state) :
  visit w subs dry file files rs = (files1, rs1, Normal) ->
  run dry (file :: rest) files rs = run dry rest files1 rs1.
Proof. intros H. cbn [visit_all]. now rewrite H. Qed.

Lemma visit_all_stop (dry : bool) (file : string) (rest : list string)
      (files files1 : files_t) (rs rs1 : run_state) (st : status) :
  st <> Normal ->
  visit w subs dry file files rs = (files1, rs1, st) ->
  run dry (file :: rest) files rs = (files1, rs1, st).
Proof. intros Hst H. cbn [visit_all]. rewrite H. now destruct st. Qed.

(** *** What is printed *)

Lemma visit_report (dry : bool) (file : string) (files files' : files_t)
      (rs rs' : run_state) (st : status) :
  visit w subs dry file files rs = (files', rs', st) ->
  (stdout rs' = stdout rs /\ renamed rs' = renamed rs) \/
  (exists target,
      stdout rs' = (stdout rs ++ [file_line dry file target])%list /\
      renamed rs' = renamed rs + 1).
Proof.
  rewrite visit_plan.
  destruct (negb (is_file files file)); [intros [= <- <- <-]; now left|].
  destruct (negb (has_at file)); [intros [= <- <- <-]; now left|].
  destruct (plan files subs file) as [target|];
    [|intros [= <- <- <-]; now left].
  destruct dry.
  - intros [= <- <- <-]. right. now exists target.
  - destruct (rename w files subs file target);
      intros [= <- <- <-]; [right; now exists target | now left].
Qed.

Lemma visit_all_report (dry : bool) (l : list string) :
  forall files rs files' rs' st,
    run dry l files rs = (files', rs', st) ->
    exists lines,
      stdout rs' = (stdout rs ++ lines)%list /\
      renamed rs' = renamed rs + List.length lines /\
      Forall (report_line dry) lines.
Proof.
  induction l as [|file rest IH]; intros files rs files' rs' st H.
  - injection H as <- <- <-. exists []. rewrite List.app_nil_r. auto.
  - destruct (visit w subs dry file files rs) as [[files1 rs1] st1] eqn:Ev.
    pose proof (visit_report _ _ _ _ _ _ _ Ev) as Hstep.
    assert (exists lines1,
               stdout rs1 = (stdout rs ++ lines1)%list /\
               renamed rs1 = renamed rs + List.length lines1 /\
               Forall (report_line dry) lines1) as (lines1 & Ho & Hr & Hf).
    { destruct Hstep as [[Ho Hr]|(target & Ho & Hr)].
      - exists []. rewrite List.app_nil_r. simpl. repeat split; auto; lia.
      - exists [file_line dry file target]. repeat split; auto.
        constructor; [|constructor]. now exists file, target. }
    destruct st1.
    + rewrite (visit_all_cons _ _ _ _ _ _ _ Ev) in H.
      destruct (IH _ _ _ _ _ H) as (lines & Ho' & Hr' & Hf').
      exists (lines1 ++ lines)%list.
      rewrite Ho', Ho, Hr', Hr, List.length_app, <- List.app_assoc.
      repeat split; auto using Forall_app; [lia|].
      apply Forall_app. now split.
    + rewrite (visit_all_stop dry file rest files files1 rs rs1 (Raised e))
        in H by (discriminate || assumption).
      injection H as <- <- <-. now exists lines1.
    + rewrite (visit_all_stop dry file rest files files1 rs rs1 OutOfFuel)
        in H by (discriminate || assumption).
      injection H as <- <- <-. now exists lines1.
Qed.

(** *** A dry run *)

Lemma visit_all_dry (l : list string) (files : files_t) (rs : run_state) :
  run true l files rs =
  (files,
   mkRun (renamed rs + List.length (filter (to_rename files) l))
         (skipped rs + List.length (filter (to_skip files) l))
         (stdout rs ++ dry_run_report files subs l),
   Normal).
Proof.
  revert rs. unfold dry_run_report.
  induction l as [|file rest IH]; intros rs.
  - simpl. rewrite !Nat.add_0_r, List.app_nil_r. now destruct rs.
  - destruct (entry_cases files file) as [Hn|[Hs|Hr]].
    + rewrite (visit_all_cons _ _ _ _ _ _ _
                 (visit_not_file w subs _ _ _ _ Hn)), IH.
      unfold to_rename, to_skip. cbn [filter]. now rewrite Hn.
    + rewrite (visit_all_cons _ _ _ _ _ _ _ (visit_skip w subs _ _ _ _ Hs)).
      rewrite IH. cbn [filter]. rewrite Hs.
      assert (to_rename files file = false) as ->.
      { unfold to_skip, to_rename in *.
        destruct (is_file files file), (has_at file); auto. }
      simpl. do 2 f_equal. f_equal. lia.
    + destruct (visit_dry w subs file files rs Hr) as (target & Hp & Ev).
      rewrite (visit_all_cons _ _ _ _ _ _ _ Ev), IH.
      cbn [filter]. rewrite Hr.
      assert (to_skip files file = false) as ->.
      { unfold to_skip, to_rename in *.
        destruct (is_file files file), (has_at file); auto. }
      simpl. rewrite Hp, <- List.app_assoc. simpl.
      do 2 f_equal. f_equal. lia.
Qed.

(** *** A pass with nothing to rename *)

Lemma visit_all_quiet (dry : bool) (l : list string) (files : files_t)
      (rs : run_state) :
  (forall n, In n l -> to_rename files n = false) ->
  run dry l files rs =
  (files,
   mkRun (renamed rs) (skipped rs + List.length (filter (to_skip files) l))
         (stdout rs),
   Normal).
Proof.
  revert rs. induction l as [|file rest IH]; intros rs Hl.
  - simpl. rewrite Nat.add_0_r. now destruct rs.
  - assert (forall n, In n rest -> to_rename files n = false) as Hrest
        by (intros n Hn; apply Hl; now right).
    destruct (entry_cases files file) as [Hn|[Hs|Hr]].
    + rewrite (visit_all_cons _ _ _ _ _ _ _
                 (visit_not_file w subs _ _ _ _ Hn)), (IH _ Hrest).
      unfold to_skip. cbn [filter]. now rewrite Hn.
    + rewrite (visit_all_cons _ _ _ _ _ _ _ (visit_skip w subs _ _ _ _ Hs)).
      rewrite (IH _ Hrest). cbn [filter]. rewrite Hs.
      simpl. do 2 f_equal. f_equal. lia.
    + rewrite Hl in Hr by now left. discriminate.
Qed.

End Pass.

(* ================================================================== *)
(** ** Facts on a real pass over one directory *)
(* ================================================================== *)

Section RealPass.
Import PyStr PyStrFacts PurePath PathFacts FSFacts.

Variables (w : bool) (subs : subdirs_t).

Local Abbreviation run := (visit_all w subs).

Lemma is_file_relabel_other (files : files_t) (src dst n : string) :
  no_links files = true -> n <> src -> n <> dst ->
  is_file (relabel src dst files) n = is_file files n.
Proof.
  intros Hl Hs Hd.
  rewrite !is_file_plain by auto using no_links_relabel.
  now rewrite lookup_relabel_other.
Qed.

Lemma is_file_relabel_src (files : files_t) (src dst : string) :
  no_links files = true ->
  src <> dst -> is_file (relabel src dst files) src = false.
Proof.
  intros Hl H. rewrite is_file_plain by auto using no_links_relabel.
  now rewrite lookup_relabel_src.
Qed.

Lemma is_file_names (files : files_t) (n : string) :
  is_file files n = true -> In n (map fst files).
Proof.
  intros H. destruct (is_file_lookup _ _ H) as (k & E).
  eauto using lookup_In.
Qed.

Lemma tidy_links (l : list string) (files : files_t) :
  tidy subs l files -> no_links files = true.
Proof. now intros (_ & _ & _ & H). Qed.

Lemma tidy_tail (file : string) (rest : list string) (files : files_t) :
  tidy subs (file :: rest) files -> tidy subs rest files.
Proof.
  intros (Hn & Hl & Hi & Hk). repeat split; auto.
  - now inversion Hl.
  - intros n Hin. apply Hi. now right.
Qed.

Lemma tidy_other (file target : string) (rest : list string)
      (files : files_t) (n : string) :
  tidy subs (file :: rest) files -> ~ In target (names files subs) ->
  In n rest -> n <> file /\ n <> target.
Proof.
  intros (Hn & Hl & Hi & Hk) Ht Hin. inversion Hl; subst. split.
  - intros ->. contradiction.
  - intros ->. apply Ht, Hi. now right.
Qed.

Lemma tidy_relabel (file target : string) (rest : list string)
      (files : files_t) :
  tidy subs (file :: rest) files -> is_file files file = true ->
  ~ In target (names files subs) ->
  tidy subs rest (relabel file target files).
Proof.
  intros Ht Hf Hfresh.
  pose proof (is_file_names _ _ Hf) as Hsrc.
  pose proof Ht as (Hn & Hl & Hi & Hk). split; [|split; [|split]].
  - now apply NoDup_relabel.
  - now inversion Hl.
  - intros n Hin.
    destruct (tidy_other _ _ _ _ _ Ht Hfresh Hin) as [Hne _].
    apply In_relabel; auto. apply Hi. now right.
  - now apply no_links_relabel.
Qed.

(** The entries still to visit are as they were before the renaming. *)
Lemma filter_relabel (p : files_t -> string -> bool) (file target : string)
      (rest : list string) (files : files_t) :
  (forall fs fs' n, is_file fs n = is_file fs' n -> p fs n = p fs' n) ->
  tidy subs (file :: rest) files -> ~ In target (names files subs) ->
  filter (p (relabel file target files)) rest = filter (p files) rest.
Proof.
  intros Hp Ht Hfresh. apply filter_ext_in. intros n Hin.
  destruct (tidy_other _ _ _ _ _ Ht Hfresh Hin) as [H1 H2].
  apply Hp. apply is_file_relabel_other; eauto using tidy_links.
Qed.

Lemma to_rename_local (fs fs' : files_t) (n : string) :
  is_file fs n = is_file fs' n -> to_rename fs n = to_rename fs' n.
Proof. unfold to_rename. now intros ->. Qed.

Lemma to_skip_local (fs fs' : files_t) (n : string) :
  is_file fs n = is_file fs' n -> to_skip fs n = to_skip fs' n.
Proof. unfold to_skip. now intros ->. Qed.

Lemma to_rename_not_skip (files : files_t) (n : string) :
  to_rename files n = true -> to_skip files n = false.
Proof.
  unfold to_rename, to_skip. destruct (is_file files n), (has_at n); auto.
Qed.

Lemma to_skip_not_rename (files : files_t) (n : string) :
  to_skip files n = true -> to_rename files n = false.
Proof.
  unfold to_rename, to_skip. destruct (is_file files n), (has_at n); auto.
Qed.

(** A real pass that ends normally has renamed every regular file with
    an [@] among the matches and counted the other regular files. What
    is left with an [@] was there before and was not among the
    matches. *)
Lemma visit_all_real (l : list string) :
  forall files rs files' rs',
    tidy subs l files ->
    (forall n, In n l -> matches_conf n = true) ->
    run false l files rs = (files', rs', Normal) ->
    renamed rs' = renamed rs + List.length (filter (to_rename files) l) /\
    skipped rs' = skipped rs + List.length (filter (to_skip files) l) /\
    (forall n, to_rename files' n = true ->
               to_rename files n = true /\ ~ In n l).
Proof.
  induction l as [|file rest IH]; intros files rs files' rs' Ht Hm H.
  - injection H as <- <-. simpl. split; [|split]; try lia.
    intros n Hx. auto.
  - assert (forall n, In n rest -> matches_conf n = true) as Hm'
        by (intros n Hn; apply Hm; now right).
    destruct (entry_cases files file) as [Hn|[Hs|Hr]].
    + rewrite (visit_all_cons _ _ _ _ _ _ _ _ _
                 (visit_not_file w subs _ _ _ _ Hn)) in H.
      destruct (IH _ _ _ _ (tidy_tail _ _ _ Ht) Hm' H) as (Hr & Hs & Hleft).
      unfold to_rename, to_skip in *. cbn [filter]. rewrite Hn. simpl.
      split; [|split]; auto. intros n Hx.
      destruct (Hleft n Hx) as [Hx' Hnin]. split; [assumption|].
      intros [<-|Hin]; [|contradiction].
      rewrite Hn in Hx'. discriminate.
    + rewrite (visit_all_cons _ _ _ _ _ _ _ _ _
                 (visit_skip w subs _ _ _ _ Hs)) in H.
      destruct (IH _ _ _ _ (tidy_tail _ _ _ Ht) Hm' H) as (Hr & Hk & Hleft).
      cbn [filter]. rewrite Hs, (to_skip_not_rename _ _ Hs).
      simpl in *. split; [|split]; [lia | lia |]. intros n Hx.
      destruct (Hleft n Hx) as [Hx' Hnin]. split; [assumption|].
      intros [<-|Hin]; [|contradiction].
      rewrite (to_skip_not_rename _ _ Hs) in Hx'. discriminate.
    + assert (w = true) as Hw.
      { destruct (Bool.bool_dec w true) as [Hw|Hw]; [assumption|].
        apply not_true_is_false in Hw.
        rewrite (visit_all_stop _ _ _ _ _ _ _ _ _ (Raised PermissionError)
                   ltac:(discriminate)
                   (visit_real_denied w subs file files rs Hw Hr)) in H.
        discriminate. }
      pose proof (tidy_links _ _ Ht) as Hk.
      destruct (visit_real_ok w subs file files rs Hk Hw Hr)
        as (target & Hp & Ev).
      rewrite (visit_all_cons _ _ _ _ _ _ _ _ _ Ev) in H.
      pose proof (plan_fresh _ _ _ _ Hk Hp) as Hfresh.
      assert (is_file files file = true) as Hf
          by (unfold to_rename in Hr; now apply andb_true_iff in Hr).
      assert (file <> target) as Hne.
      { intros <-. apply Hfresh. eauto using is_file_In. }
      destruct (IH _ _ _ _ (tidy_relabel _ _ _ _ Ht Hf Hfresh) Hm' H)
        as (Hrn & Hsk & Hleft).
      rewrite (filter_relabel to_rename) in Hrn
        by auto using to_rename_local.
      rewrite (filter_relabel to_skip) in Hsk by auto using to_skip_local.
      cbn [filter]. rewrite Hr, (to_rename_not_skip _ _ Hr).
      simpl in *. split; [|split]; [lia | lia |]. intros n Hx.
      destruct (Hleft n Hx) as [Hx' Hnin].
      assert (n <> target) as Hnt.
      { intros ->. unfold to_rename in Hx'.
        apply andb_true_iff in Hx' as [_ Hat].
        rewrite has_at_clean in Hat; [discriminate|].
        apply (plan_clean files subs file); [apply Hm; now left | exact Hp]. }
      assert (n <> file) as Hnf.
      { intros ->. unfold to_rename in Hx'.
        rewrite is_file_relabel_src in Hx' by assumption. discriminate. }
      split.
      * rewrite <- Hx'. apply to_rename_local. symmetry.
        now apply is_file_relabel_other.
      * intros [E|Hin]; [now symmetry in E | contradiction].
Qed.

(** In the model, the pass over a writable directory without links
    ends normally. *)
Lemma visit_all_writable (l : list string) :
  w = true ->
  forall files rs,
    no_links files = true ->
    exists files' rs', run false l files rs = (files', rs', Normal).
Proof.
  intros Hw. induction l as [|file rest IH]; intros files rs Hk.
  - now exists files, rs.
  - destruct (entry_cases files file) as [Hn|[Hs|Hr]].
    + rewrite (visit_all_cons _ _ _ _ _ _ _ _ _
                 (visit_not_file w subs _ _ _ _ Hn)). now apply IH.
    + rewrite (visit_all_cons _ _ _ _ _ _ _ _ _
                 (visit_skip w subs _ _ _ _ Hs)). now apply IH.
    + destruct (visit_real_ok w subs file files rs Hk Hw Hr)
        as (target & _ & Ev).
      rewrite (visit_all_cons _ _ _ _ _ _ _ _ _ Ev).
      apply IH. now apply no_links_relabel.
Qed.

(** In a directory that is not writable the first file to rename ends
    the pass, and nothing before it changed anything but the count of
    skipped files. *)
Lemma visit_all_denied (l : list string) :
  w = false ->
  forall files rs files' rs' st,
    run false l files rs = (files', rs', st) ->
    files' = files /\ stdout rs' = stdout rs /\ renamed rs' = renamed rs /\
    ((st = Normal /\ forall n, In n l -> to_rename files n = false) \/
     (st = Raised PermissionError /\
      exists n, In n l /\ to_rename files n = true)).
Proof.
  intros Hw. induction l as [|file rest IH]; intros files rs files' rs' st H.
  - injection H as <- <- <-. repeat split; auto. left. split; auto.
    intros n [].
  - destruct (entry_cases files file) as [Hn|[Hs|Hr]].
    + rewrite (visit_all_cons _ _ _ _ _ _ _ _ _
                 (visit_not_file w subs _ _ _ _ Hn)) in H.
      destruct (IH _ _ _ _ _ H) as (Hf & Ho & Hc & Hst).
      repeat split; auto.
      destruct Hst as [[-> Hall]|[-> (n & Hin & Hx)]].
      * left. split; auto. intros n [<-|Hin]; auto.
        unfold to_rename. now rewrite Hn.
      * right. split; auto. exists n. split; auto. now right.
    + rewrite (visit_all_cons _ _ _ _ _ _ _ _ _
                 (visit_skip w subs _ _ _ _ Hs)) in H.
      destruct (IH _ _ _ _ _ H) as (Hf & Ho & Hc & Hst).
      repeat split; auto.
      destruct Hst as [[-> Hall]|[-> (n & Hin & Hx)]].
      * left. split; auto. intros n [<-|Hin]; auto.
        now apply to_skip_not_rename.
      * right. split; auto. exists n. split; auto. now right.
    + rewrite (visit_all_stop _ _ _ _ _ _ _ _ _ (Raised PermissionError)
                   ltac:(discriminate)
                 (visit_real_denied w subs file files rs Hw Hr)) in H.
      injection H as <- <- <-. repeat split; auto.
      right. split; auto. exists file. split; auto. now left.
Qed.

End RealPass.

(* ================================================================== *)
(** ** Facts on the walk *)
(* ================================================================== *)

Section Walk.
Import PyStr PyStrFacts PurePath PathFacts FSFacts.

(** Induction on a tree, with the property known of every
    subdirectory. *)
Lemma tree_ind' (P : tree -> Prop) :
  (forall w files subs,
      Forall (fun e => P (snd e)) subs -> P (Dir w files subs)) ->
  forall t, P t.
Proof.
  intros Hdir. fix IH 1. intros [w files subs]. apply Hdir.
  induction subs as [|[n sub] l IHl]; constructor.
  - apply IH.
  - apply IHl.
Qed.

Lemma walk_subdirs_cons
      (walk : tree -> run_state -> tree * run_state * status)
      (n : string) (sub : tree) (l : subdirs_t) (rs : run_state) :
  walk_subdirs walk ((n, sub) :: l) rs =
  match walk sub rs with
  | (sub', rs', Normal) =>
      let '(l'', rs'', st) := walk_subdirs walk l rs' in
      ((n, sub') :: l'', rs'', st)
  | (sub', rs', st) => ((n, sub') :: l, rs', st)
  end.
Proof. reflexivity. Qed.

(** A relation on states that every walk of a subdirectory keeps, and
    that composes, is kept by the walk of all of them. *)
Lemma walk_subdirs_preorder (R : run_state -> run_state -> Prop)
      (walk : tree -> run_state -> tree * run_state * status)
      (l : subdirs_t) :
  (forall rs, R rs rs) ->
  (forall a b c, R a b -> R b c -> R a c) ->
  Forall (fun e => forall rs t' rs' st,
              walk (snd e) rs = (t', rs', st) -> R rs rs') l ->
  forall rs l' rs' st,
    walk_subdirs walk l rs = (l', rs', st) -> R rs rs'.
Proof.
  intros Hrefl Htrans Hall.
  induction Hall as [|[n sub] l Hsub _ IH]; intros rs l' rs' st H.
  - injection H as <- <- <-. apply Hrefl.
  - rewrite walk_subdirs_cons in H. simpl in Hsub.
    destruct (walk sub rs) as [[sub1 rs1] st1] eqn:E.
    specialize (Hsub _ _ _ _ E).
    destruct st1.
    + destruct (walk_subdirs walk l rs1) as [[l2 rs2] st2] eqn:E2.
      injection H as <- <- <-. eauto.
    + now injection H as <- <- <-.
    + now injection H as <- <- <-.
Qed.

Lemma walk_subdirs_completes
      (walk : tree -> run_state -> tree * run_state * status)
      (l : subdirs_t) :
  Forall (fun e => forall rs, exists t' rs',
              walk (snd e) rs = (t', rs', Normal)) l ->
  forall rs, exists l' rs', walk_subdirs walk l rs = (l', rs', Normal).
Proof.
  intros Hall. induction Hall as [|[n sub] l Hsub _ IH]; intros rs.
  - now exists [], rs.
  - rewrite walk_subdirs_cons. simpl in Hsub.
    destruct (Hsub rs) as (sub1 & rs1 & ->).
    destruct (IH rs1) as (l2 & rs2 & ->).
    now exists ((n, sub1) :: l2), rs2.
Qed.

(** When the walk of the subdirectories ends normally, the counters
    have advanced by the sums over the subdirectories. *)
Lemma walk_subdirs_counts (a b : tree -> nat) (P : tree -> tree -> Prop)
      (walk : tree -> run_state -> tree * run_state * status)
      (l : subdirs_t) :
  Forall (fun e => forall rs t' rs',
              walk (snd e) rs = (t', rs', Normal) ->
              renamed rs' = renamed rs + a (snd e) /\
              skipped rs' = skipped rs + b (snd e) /\
              P (snd e) t') l ->
  forall rs l' rs',
    walk_subdirs walk l rs = (l', rs', Normal) ->
    renamed rs' = renamed rs + list_sum (map (fun e => a (snd e)) l) /\
    skipped rs' = skipped rs + list_sum (map (fun e => b (snd e)) l) /\
    Forall2 (fun e e' => fst e' = fst e /\ P (snd e) (snd e')) l l'.
Proof.
  intros Hall. induction Hall as [|[n sub] l Hsub _ IH]; intros rs l' rs' H.
  - injection H as <- <-. simpl. repeat split; auto; lia.
  - rewrite walk_subdirs_cons in H. simpl in Hsub.
    destruct (walk sub rs) as [[sub1 rs1] st1] eqn:E.
    destruct st1; try (injection H as _ _ H; discriminate).
    destruct (walk_subdirs walk l rs1) as [[l2 rs2] st2] eqn:E2.
    injection H as <- <- ->.
    destruct (Hsub _ _ _ E) as (Hr & Hs & HP).
    destruct (IH _ _ _ E2) as (Hr' & Hs' & HP').
    simpl. repeat split; auto; lia.
Qed.

(** ** Counting over a tree *)

Lemma filter_none {A} (p : A -> bool) (l : list A) :
  (forall x, In x l -> p x = false) <-> List.length (filter p l) = 0.
Proof.
  induction l as [|x l IH]; simpl.
  - split; auto. intros _ y [].
  - destruct (p x) eqn:E; simpl.
    + split; [|discriminate]. intros H.
      rewrite H in E by now left. discriminate.
    + rewrite <- IH. split.
      * intros H y Hy. apply H. now right.
      * intros H y [<-|Hy]; auto.
Qed.

Lemma list_sum_zero {A} (f : A -> nat) (l : list A) :
  list_sum (map f l) = 0 <-> Forall (fun x => f x = 0) l.
Proof.
  induction l as [|x l IH]; simpl.
  - split; auto.
  - split.
    + intros H. constructor; [lia|]. apply IH. lia.
    + intros H. inversion H; subst. apply IH in H3. lia.
Qed.

Lemma list_sum_add {A} (f g : A -> nat) (l : list A) :
  list_sum (map (fun x => f x + g x) l)
  = list_sum (map f l) + list_sum (map g l).
Proof. induction l as [|x l IH]; simpl; lia. Qed.

Lemma filter_regular (files : files_t) (l : list string) :
  List.length (filter (is_file files) l)
  = List.length (filter (to_rename files) l)
    + List.length (filter (to_skip files) l).
Proof.
  induction l as [|n l IH]; simpl; [reflexivity|].
  unfold to_rename, to_skip in *.
  destruct (is_file files n), (has_at n); simpl; lia.
Qed.

(** The regular files enumerated are those to rename and those to
    skip. *)
Lemma regular_conf_files_split (r : bool) (t : tree) :
  regular_conf_files r t
  = count_conf to_rename r t + count_conf to_skip r t.
Proof.
  unfold regular_conf_files.
  induction t as [w files subs IH] using tree_ind'.
  cbn [count_conf]. rewrite filter_regular.
  destruct r; [|lia].
  rewrite (map_ext_in _ (fun e => count_conf to_rename true (snd e)
                                  + count_conf to_skip true (snd e))).
  - rewrite list_sum_add. lia.
  - intros e He. rewrite Forall_forall in IH. now apply IH.
Qed.

End Walk.

(* ================================================================== *)
(** ** Facts on the whole pass *)
(* ================================================================== *)

Section WholePass.
Import PyStr PyStrFacts PurePath PathFacts FSFacts.

Variables (r d : bool).

Lemma reported_refl (rs : run_state) : reported d rs rs.
Proof. exists []. rewrite List.app_nil_r. simpl. auto. Qed.

Lemma reported_trans (a b c : run_state) :
  reported d a b -> reported d b c -> reported d a c.
Proof.
  intros (l1 & Ho1 & Hr1 & Hf1) (l2 & Ho2 & Hr2 & Hf2).
  exists (l1 ++ l2)%list.
  rewrite Ho2, Ho1, Hr2, Hr1, List.length_app, <- List.app_assoc.
  repeat split; [lia|]. apply Forall_app. now split.
Qed.

(** Whatever the pass does and however it ends, it has printed one
    per-file line for each file it counted as renamed. *)
Lemma rename_walk_report (t : tree) :
  forall rs t' rs' st,
    rename_walk r d t rs = (t', rs', st) -> reported d rs rs'.
Proof.
  induction t as [w files subs IH] using tree_ind'.
  intros rs t' rs' st H. cbn [rename_walk] in H.
  destruct (visit_all w subs d (glob_conf files subs) files rs)
    as [[files1 rs1] st1] eqn:E.
  pose proof (visit_all_report _ _ _ _ _ _ _ _ _ E) as H1.
  fold (reported d rs rs1) in H1.
  destruct st1; try (injection H as <- <- <-; assumption).
  destruct r; [|injection H as <- <- <-; assumption].
  destruct (walk_subdirs (rename_walk true d) subs rs1)
    as [[subs2 rs2] st2] eqn:E2.
  injection H as <- <- <-.
  apply (reported_trans _ _ _ H1).
  eapply walk_subdirs_preorder;
    eauto using reported_refl, reported_trans.
Qed.

(** In the model, a dry run, and a real pass through writable
    directories without links, end normally. *)
Lemma rename_walk_completes (t : tree) :
  d = true \/ (writable_all r t = true /\ plain r t = true) ->
  forall rs, exists t' rs', rename_walk r d t rs = (t', rs', Normal).
Proof.
  induction t as [w files subs IH] using tree_ind'.
  intros Hok rs. cbn [rename_walk].
  assert (exists files1 rs1,
             visit_all w subs d (glob_conf files subs) files rs
             = (files1, rs1, Normal)) as (files1 & rs1 & ->).
  { destruct d eqn:Ed.
    - rewrite visit_all_dry. eauto.
    - destruct Hok as [Hok|[Hok Hp]]; [discriminate|].
      cbn [writable_all] in Hok. apply andb_true_iff in Hok as [Hw _].
      cbn [plain] in Hp. apply andb_true_iff in Hp as [Hp _].
      apply andb_true_iff in Hp as [_ Hk].
      now apply visit_all_writable. }
  destruct r eqn:Er; [|eauto].
  assert (Forall (fun e => forall rs, exists t' rs',
                      rename_walk true d (snd e) rs = (t', rs', Normal))
                 subs) as Hsubs.
  { rewrite Forall_forall in *. intros e He. apply (IH e He).
    destruct Hok as [Hok|[Hok Hp]]; [now left | right].
    cbn [writable_all] in Hok. apply andb_true_iff in Hok as [_ Hall].
    cbn [plain] in Hp. apply andb_true_iff in Hp as [_ Hp].
    rewrite forallb_forall in Hall, Hp. split; [now apply Hall|].
    now apply Hp. }
  destruct (walk_subdirs_completes _ _ Hsubs rs1) as (subs2 & rs2 & ->).
  eauto.
Qed.

Lemma tidy_glob (files : files_t) (subs : subdirs_t) :
  nodup_names (names files subs) && no_links files = true ->
  tidy subs (glob_conf files subs) files.
Proof.
  intros H. apply andb_true_iff in H as [H Hk].
  apply nodup_names_NoDup in H. unfold glob_conf.
  repeat split; auto using NoDup_filter, incl_filter.
Qed.

Lemma plain_here (w : bool) (files : files_t) (subs : subdirs_t) :
  plain r (Dir w files subs) = true ->
  nodup_names (names files subs) && no_links files = true.
Proof. cbn [plain]. intros H. now apply andb_true_iff in H as [H _]. Qed.

Lemma plain_below (w : bool) (files : files_t) (subs : subdirs_t)
      (e : string * tree) :
  plain true (Dir w files subs) = true -> In e subs ->
  plain true (snd e) = true.
Proof.
  cbn [plain]. intros H He. apply andb_true_iff in H as [_ H].
  rewrite forallb_forall in H. now apply H.
Qed.

Lemma glob_conf_matches (files : files_t) (subs : subdirs_t) (n : string) :
  In n (glob_conf files subs) <->
  In n (names files subs) /\ matches_conf n = true.
Proof. unfold glob_conf. apply filter_In. Qed.

Lemma same_names (P : tree -> tree -> Prop) (l l' : subdirs_t) :
  Forall2 (fun e e' => fst e' = fst e /\ P (snd e) (snd e')) l l' ->
  map fst l' = map fst l.
Proof.
  induction 1 as [|e e' l l' [He _] _ IH]; simpl; [reflexivity|].
  now rewrite He, IH.
Qed.

Lemma same_subdirs (l l' : subdirs_t) :
  Forall2 (fun e e' => fst e' = fst e /\ snd e' = snd e) l l' -> l' = l.
Proof.
  induction 1 as [|[n t] [n' t'] l l' [He Ht] _ IH]; simpl in *;
    [reflexivity|]. now subst.
Qed.

(** A pass that ends normally has counted as renamed the regular files
    among the matches whose stem has an [@], and as skipped the other
    regular files among the matches. *)
Lemma rename_walk_counts (t : tree) :
  d = true \/ plain r t = true ->
  forall rs t' rs',
    rename_walk r d t rs = (t', rs', Normal) ->
    renamed rs' = renamed rs + count_conf to_rename r t /\
    skipped rs' = skipped rs + count_conf to_skip r t /\
    after d r t t'.
Proof.
  induction t as [w files subs IH] using tree_ind'.
  intros Hok rs t' rs' H. cbn [rename_walk] in H.
  destruct (visit_all w subs d (glob_conf files subs) files rs)
    as [[files1 rs1] st1] eqn:E.
  destruct st1; try (injection H as _ _ H; discriminate).
  (* this directory *)
  assert (renamed rs1 = renamed rs
          + List.length (filter (to_rename files) (glob_conf files subs)) /\
          skipped rs1 = skipped rs
          + List.length (filter (to_skip files) (glob_conf files subs)) /\
          (if d then files1 = files
           else forall n, In n (glob_conf files1 subs) ->
                          to_rename files1 n = false))
    as (Hr1 & Hs1 & Hfiles).
  { destruct d eqn:Ed.
    - rewrite visit_all_dry in E. injection E as <- <-. simpl. auto.
    - destruct Hok as [Hok|Hok]; [discriminate|].
      apply plain_here in Hok as Hnd.
      destruct (visit_all_real w subs _ _ _ _ _ (tidy_glob _ _ Hnd)
                  (fun n Hn => proj2 (proj1 (glob_conf_matches _ _ n) Hn)) E)
        as (Hr1 & Hs1 & Hleft).
      repeat split; auto. intros n Hn.
      destruct (to_rename files1 n) eqn:Ex; [exfalso | reflexivity].
      destruct (Hleft n Ex) as [Hx Hnin]. apply Hnin.
      apply glob_conf_matches. split.
      + unfold to_rename in Hx. apply andb_true_iff in Hx as [Hx _].
        eauto using is_file_In.
      + now apply glob_conf_matches in Hn. }
  cbn [count_conf].
  destruct r eqn:Er.
  - (* the subdirectories *)
    destruct (walk_subdirs (rename_walk true d) subs rs1)
      as [[subs2 rs2] st2] eqn:E2.
    injection H as <- <- ->.
    assert (Forall (fun e => forall rs t' rs',
                        rename_walk true d (snd e) rs = (t', rs', Normal) ->
                        renamed rs' = renamed rs
                                      + count_conf to_rename true (snd e) /\
                        skipped rs' = skipped rs
                                      + count_conf to_skip true (snd e) /\
                        after d true (snd e) t') subs) as Hsubs.
    { rewrite Forall_forall in *. intros e He. apply (IH e He).
      destruct Hok as [Hok|Hok]; [now left | right].
      eauto using plain_below. }
    destruct (walk_subdirs_counts _ _ _ _ _ Hsubs _ _ _ E2)
      as (Hr2 & Hs2 & Hafter).
    split; [lia|]. split; [lia|].
    pose proof (same_names _ _ _ Hafter) as Hnames.
    unfold after in *. destruct d.
    + subst files1. now rewrite (same_subdirs _ _ Hafter).
    + cbn [count_conf].
      assert (glob_conf files1 subs2 = glob_conf files1 subs) as ->.
      { unfold glob_conf, names. now rewrite Hnames. }
      apply filter_none in Hfiles. rewrite Hfiles. simpl.
      apply list_sum_zero.
      clear - Hafter. induction Hafter as [|e e' l l' [_ He] _ IHl];
        constructor; auto.
  - injection H as <- <-.
    split; [lia|]. split; [lia|].
    unfold after. destruct d.
    + now subst files1.
    + cbn [count_conf]. apply filter_none in Hfiles. rewrite Hfiles. lia.
Qed.

End WholePass.

(* ================================================================== *)
(** ** The model never runs out of fuel *)
(* ================================================================== *)

Section Fuel.

Lemma visit_fuel (w : bool) (subs : subdirs_t) (d : bool) (file : string)
      (files files' : files_t) (rs rs' : run_state) (st : status) :
  visit w subs d file files rs = (files', rs', st) -> st <> OutOfFuel.
Proof.
  rewrite visit_plan.
  destruct (negb (is_file files file)); [now intros [= _ _ <-]|].
  destruct (has_at file) eqn:Hat; simpl; [|now intros [= _ _ <-]].
  destruct (plan_total files subs _ Hat) as (target & ->).
  destruct d; [now intros [= _ _ <-]|].
  destruct (rename w files subs file target); now intros [= _ _ <-].
Qed.

Lemma visit_all_fuel (w : bool) (subs : subdirs_t) (d : bool)
      (l : list string) :
  forall files rs files' rs' st,
    visit_all w subs d l files rs = (files', rs', st) -> st <> OutOfFuel.
Proof.
  induction l as [|file rest IH]; intros files rs files' rs' st H.
  - now injection H as _ _ <-.
  - cbn [visit_all] in H.
    destruct (visit w subs d file files rs) as [[files1 rs1] st1] eqn:E.
    pose proof (visit_fuel _ _ _ _ _ _ _ _ _ E) as Hst.
    destruct st1; [eauto | now injection H as _ _ <- | contradiction].
Qed.

Lemma walk_subdirs_fuel
      (walk : tree -> run_state -> tree * run_state * status)
      (l : subdirs_t) :
  Forall (fun e => forall rs t' rs' st,
              walk (snd e) rs = (t', rs', st) -> st <> OutOfFuel) l ->
  forall rs l' rs' st,
    walk_subdirs walk l rs = (l', rs', st) -> st <> OutOfFuel.
Proof.
  intros Hall. induction Hall as [|[n sub] l Hsub _ IH];
    intros rs l' rs' st H.
  - now injection H as _ _ <-.
  - rewrite walk_subdirs_cons in H. simpl in Hsub.
    destruct (walk sub rs) as [[sub1 rs1] st1] eqn:E.
    pose proof (Hsub _ _ _ _ E) as Hst.
    destruct st1; [|now injection H as _ _ <- | contradiction].
    destruct (walk_subdirs walk l rs1) as [[l2 rs2] st2] eqn:E2.
    injection H as _ _ <-. eauto.
Qed.

Lemma rename_walk_fuel (r d : bool) (t : tree) :
  forall rs t' rs' st,
    rename_walk r d t rs = (t', rs', st) -> st <> OutOfFuel.
Proof.
  induction t as [w files subs IH] using tree_ind'.
  intros rs t' rs' st H. cbn [rename_walk] in H.
  destruct (visit_all w subs d (glob_conf files subs) files rs)
    as [[files1 rs1] st1] eqn:E.
  pose proof (visit_all_fuel _ _ _ _ _ _ _ _ _ E) as Hst.
  destruct st1; [|now injection H as _ _ <- | contradiction].
  destruct r; [|now injection H as _ _ <-].
  destruct (walk_subdirs (rename_walk true d) subs rs1)
    as [[subs2 rs2] st2] eqn:E2.
  injection H as _ _ <-.
  exact (walk_subdirs_fuel _ _ IH _ _ _ _ E2).
Qed.

(** [main] returns or lets an exception through. *)
Lemma main_never_hangs (a : args) (wd : world) : snd (main a wd) <> Hang.
Proof.
  unfold main. destruct (root_dir wd a) as [[pos root]|];
    [|discriminate].
  unfold rename_in_directory.
  destruct (rename_walk (recursive a) (dry_run a) root
                        (mkRun 0 0 (w_out wd))) as [[t' rs'] st] eqn:E.
  pose proof (rename_walk_fuel _ _ _ _ _ _ _ E) as Hst.
  destruct st; [discriminate | discriminate | contradiction].
Qed.

End Fuel.

(* ================================================================== *)
(** ** A pass with nothing to rename, and the path of [main] *)
(* ================================================================== *)

Section Quiet.
Import FSFacts.

Variables (r d : bool).

Lemma walk_subdirs_quiet (b : tree -> nat)
      (walk : tree -> run_state -> tree * run_state * status)
      (l : subdirs_t) :
  Forall (fun e => forall rs,
              walk (snd e) rs =
              (snd e, mkRun (renamed rs) (skipped rs + b (snd e)) (stdout rs),
               Normal)) l ->
  forall rs,
    walk_subdirs walk l rs =
    (l, mkRun (renamed rs)
              (skipped rs + list_sum (map (fun e => b (snd e)) l))
              (stdout rs),
     Normal).
Proof.
  intros Hall. induction Hall as [|[n sub] l Hsub _ IH]; intros rs.
  - simpl. rewrite Nat.add_0_r. now destruct rs.
  - rewrite walk_subdirs_cons. simpl in Hsub. rewrite Hsub, IH. simpl.
    do 2 f_equal. f_equal. lia.
Qed.

(** With no enumerated regular file to rename, the pass changes
    nothing, prints nothing and counts every enumerated regular file as
    skipped. *)
Lemma rename_walk_quiet (t : tree) :
  count_conf to_rename r t = 0 ->
  forall rs,
    rename_walk r d t rs =
    (t, mkRun (renamed rs) (skipped rs + count_conf to_skip r t) (stdout rs),
     Normal).
Proof.
  induction t as [w files subs IH] using tree_ind'.
  intros Hz rs. cbn [count_conf] in Hz. cbn [rename_walk count_conf].
  assert (List.length (filter (to_rename files) (glob_conf files subs)) = 0)
    as Hhere by lia.
  rewrite (visit_all_quiet _ _ _ _ _ _ (proj2 (filter_none _ _) Hhere)).
  destruct r eqn:Er.
  - assert (Forall (fun e => count_conf to_rename true (snd e) = 0) subs)
      as Hsubs by (apply list_sum_zero; lia).
    rewrite (walk_subdirs_quiet (count_conf to_skip true)).
    + simpl. do 2 f_equal. f_equal. lia.
    + rewrite Forall_forall in *. intros e He. apply (IH e He).
      now apply Hsubs.
  - simpl. do 2 f_equal. f_equal. lia.
Qed.

Lemma put_lookup {A} (c : string) (x : A) (l : list (string * A)) :
  lookup c l = Some x -> put c x l = l.
Proof.
  induction l as [|[n y] l IH]; simpl; [reflexivity|].
  destruct (String.eqb n c) eqn:E.
  - apply String.eqb_eq in E. intros [= ->]. now subst.
  - intros H. now rewrite IH.
Qed.

(** Putting back the directory that is at a path changes nothing. *)
Lemma replace_resolve (p : list string) :
  forall t root, resolve t p = Some root -> replace t p root = t.
Proof.
  induction p as [|c p IH]; intros [w files subs] root; simpl.
  - now intros [= ->].
  - destruct (lookup c subs) as [t'|] eqn:E; [|discriminate].
    intros H. rewrite (IH _ _ H). now rewrite put_lookup.
Qed.

(** The directory [main] works on is at the position it was found
    at. *)
Lemma root_dir_resolve (wd : world) (a : args) (pos : list string)
      (root : tree) :
  root_dir wd a = Some (pos, root) -> resolve (fs wd) pos = Some root.
Proof.
  unfold root_dir.
  destruct (locate (fs wd) (if absolute a then [] else cwd wd) (path a))
    as [p|]; [|discriminate].
  destruct (resolve (fs wd) p) as [t|] eqn:E; [|discriminate].
  now intros [= <- <-].
Qed.

(** In the model a dry run returns, having changed nothing. *)
Lemma rename_walk_dry (t : tree) (rs : run_state) (t' : tree)
      (rs' : run_state) (st : status) :
  rename_walk r true t rs = (t', rs', st) -> t' = t /\ st = Normal.
Proof.
  intros H.
  destruct (rename_walk_completes r true t (or_introl eq_refl) rs)
    as (t1 & rs1 & Hdry).
  destruct (rename_walk_counts r true t (or_introl eq_refl) _ _ _ Hdry)
    as (_ & _ & Hafter).
  unfold after in Hafter. subst t1. rewrite Hdry in H.
  now injection H as <- _ <-.
Qed.

End Quiet.

(* ================================================================== *)
(** ** Running a real pass again *)
(* ================================================================== *)

Section Rerun.
Import FSFacts.




End Rerun.

(* ================================================================== *)
(** ** What a pass keeps *)
(* ================================================================== *)

Section Keeps.
Import FSFacts.

Lemma relabel_kinds (src dst : string) (files : files_t) :
  map snd (relabel src dst files) = map snd files.
Proof.
  unfold relabel. rewrite map_map. apply map_ext.
  intros [n k]. simpl. now destruct (String.eqb n src).
Qed.

(** A visit leaves the entries as they are or renames the visited file
    to the name planned for it. *)
Lemma visit_files (w : bool) (subs : subdirs_t) (d : bool) (file : string)
      (files files' : files_t) (rs rs' : run_state) (st : status) :
  no_links files = true ->
  visit w subs d file files rs = (files', rs', st) ->
  files' = files \/
  (exists target,
      to_rename files file = true /\
      plan files subs file = Some target /\
      files' = relabel file target files).
Proof.
  intros Hk. rewrite visit_plan. unfold to_rename.
  destruct (is_file files file) eqn:Hf; simpl;
    [|intros [= <- _ _]; now left].
  destruct (has_at file); simpl; [|intros [= <- _ _]; now left].
  destruct (plan files subs file) as [target|] eqn:Hp;
    [|intros [= <- _ _]; now left].
  destruct d; [intros [= <- _ _]; now left|].
  rewrite rename_fresh by eauto using plan_fresh.
  destruct w; intros [= <- _ _]; [right | now left].
  now exists target.
Qed.

(** However the pass over a directory ends, the names stay distinct,
    the kinds stay in place, and an entry that is not to rename, or is
    not among the matches, keeps its name. *)
Lemma visit_all_keeps (w : bool) (subs : subdirs_t) (d : bool)
      (l : list string) :
  forall files rs files' rs' st,
    tidy subs l files ->
    visit_all w subs d l files rs = (files', rs', st) ->
    (NoDup (names files' subs) /\ no_links files' = true) /\
    map snd files' = map snd files /\
    forall n k,
      lookup n files = Some k ->
      to_rename files n = false \/ ~ In n l ->
      lookup n files' = Some k.
Proof.
  induction l as [|file rest IH]; intros files rs files' rs' st Ht H.
  - injection H as <- _ _. destruct Ht as (Hnd & _ & _ & Hk). auto.
  - cbn [visit_all] in H.
    destruct (visit w subs d file files rs) as [[files1 rs1] st1] eqn:E.
    assert (tidy subs rest files1 /\
            map snd files1 = map snd files /\
            forall n k,
              lookup n files = Some k ->
              to_rename files n = false \/ ~ In n (file :: rest) ->
              lookup n files1 = Some k /\
              (to_rename files1 n = false \/ ~ In n rest))
      as (Ht1 & Hk1 & Hl1).
    { pose proof (tidy_links _ _ _ Ht) as Hk.
      destruct (visit_files _ _ _ _ _ _ _ _ _ Hk E)
        as [->|(target & Hr & Hp & ->)].
      - split; [eauto using tidy_tail|]. split; [reflexivity|].
        intros n k Hn [Hx|Hx]; split; auto. right. intros Hin.
        apply Hx. now right.
      - pose proof (plan_fresh _ _ _ _ Hk Hp) as Hfresh.
        assert (is_file files file = true) as Hf
            by (unfold to_rename in Hr; now apply andb_true_iff in Hr).
        split; [now apply tidy_relabel|].
        split; [apply relabel_kinds|].
        intros n k Hn Hx.
        assert (n <> file) as Hnf.
        { intros ->. destruct Hx as [Hx|Hx]; [congruence|].
          apply Hx. now left. }
        assert (n <> target) as Hnt.
        { intros ->. apply Hfresh. unfold names. apply in_or_app. left.
          eauto using lookup_In. }
        split; [now rewrite lookup_relabel_other|].
        destruct Hx as [Hx|Hx]; [left | right].
        + rewrite <- Hx. apply to_rename_local.
          now apply is_file_relabel_other.
        + intros Hin. apply Hx. now right. }
    assert (NoDup (names files1 subs) /\ no_links files1 = true) as Hnd1
        by (split; [apply Ht1 | eauto using tidy_links]).
    destruct st1.
    + destruct (IH _ _ _ _ _ Ht1 H) as (Hnd & Hk & Hl).
      split; [assumption|]. split; [congruence|].
      intros n k Hn Hx. destruct (Hl1 n k Hn Hx) as [Hn1 Hx1]. eauto.
    + injection H as <- _ _. split; [assumption|]. split; [assumption|].
      intros n k Hn Hx. now apply Hl1.
    + injection H as <- _ _. split; [assumption|]. split; [assumption|].
      intros n k Hn Hx. now apply Hl1.
Qed.

Lemma walk_subdirs_rel (P : tree -> tree -> Prop)
      (walk : tree -> run_state -> tree * run_state * status)
      (l : subdirs_t) :
  (forall t, P t t) ->
  Forall (fun e => forall rs t' rs' st,
              walk (snd e) rs = (t', rs', st) -> P (snd e) t') l ->
  forall rs l' rs' st,
    walk_subdirs walk l rs = (l', rs', st) ->
    Forall2 (fun e e' => fst e' = fst e /\ P (snd e) (snd e')) l l'.
Proof.
  intros Hrefl Hall.
  assert (forall l0 : subdirs_t,
             Forall2 (fun e e' => fst e' = fst e /\ P (snd e) (snd e')) l0 l0)
    as Hsame by (induction l0; constructor; auto).
  induction Hall as [|[n sub] l Hsub _ IH]; intros rs l' rs' st H.
  - injection H as <- _ _. constructor.
  - rewrite walk_subdirs_cons in H. simpl in Hsub.
    destruct (walk sub rs) as [[sub1 rs1] st1] eqn:E.
    specialize (Hsub _ _ _ _ E).
    destruct st1.
    + destruct (walk_subdirs walk l rs1) as [[l2 rs2] st2] eqn:E2.
      injection H as <- _ _. constructor; eauto.
    + injection H as <- _ _. constructor; auto.
    + injection H as <- _ _. constructor; auto.
Qed.

Lemma lookup_Forall2 (R : tree -> tree -> Prop) (l l' : subdirs_t)
      (c : string) (x : tree) :
  Forall2 (fun e e' => fst e' = fst e /\ R (snd e) (snd e')) l l' ->
  lookup c l = Some x ->
  exists x', lookup c l' = Some x' /\ R x x'.
Proof.
  induction 1 as [|[n t] [n' t'] l l' [Hn Ht] _ IH]; simpl in *;
    [discriminate|]. subst n'.
  destruct (String.eqb n c); [|assumption].
  intros [= <-]. eauto.
Qed.

Lemma keeps_entries_refl (t : tree) : keeps_entries t t.
Proof. intros p w files subs H. exists files, subs. auto. Qed.

Lemma erase_names (files files' : files_t) :
  map snd files' = map snd files ->
  map (fun e : string * ftype => (EmptyString, snd e)) files'
  = map (fun e => (EmptyString, snd e)) files.
Proof.
  intros H.
  rewrite <- (map_map snd (fun k : ftype => (EmptyString, k)) files'),
          <- (map_map snd (fun k : ftype => (EmptyString, k)) files).
  now rewrite H.
Qed.

Lemma kept_refl (r : bool) (t : tree) : kept r t t.
Proof. repeat split; auto using keeps_entries_refl. Qed.

(** The three things the pass keeps, in every directory it goes
    through. *)
Lemma rename_walk_keeps (r d : bool) (t : tree) :
  plain r t = true ->
  forall rs t' rs' st,
    rename_walk r d t rs = (t', rs', st) ->
    plain r t' = true /\ skeleton t' = skeleton t /\ keeps_entries t t'.
Proof.
  induction t as [w files subs IH] using tree_ind'.
  intros Hwf rs t' rs' st H.
  cbn [plain] in Hwf. apply andb_true_iff in Hwf as [Hnd Hsubs].
  cbn [rename_walk] in H.
  destruct (visit_all w subs d (glob_conf files subs) files rs)
    as [[files1 rs1] st1] eqn:E.
  destruct (visit_all_keeps _ _ _ _ _ _ _ _ _ (tidy_glob _ _ Hnd) E)
    as ([Hnd1 Hno1] & Hk1 & Hl1).
  (* this directory, whatever becomes of the subdirectories *)
  assert (forall subs2,
             Forall2 (fun e e' => fst e' = fst e /\ kept r (snd e) (snd e'))
                     subs subs2 ->
             plain r (Dir w files1 subs2) = true /\
             skeleton (Dir w files1 subs2) = skeleton (Dir w files subs) /\
             keeps_entries (Dir w files subs) (Dir w files1 subs2))
    as Hdir.
  { intros subs2 Hrel.
    pose proof (same_names (kept r) _ _ Hrel) as Hnames.
    split; [|split].
    - cbn [plain]. rewrite Hno1, andb_true_r. apply andb_true_iff. split.
      + apply nodup_names_NoDup. unfold names in *. now rewrite Hnames.
      + destruct r; [|reflexivity].
        clear - Hrel Hsubs.
        induction Hrel as [|e e' l l' [_ [Hw _]] _ IHl];
          simpl in *; [reflexivity|].
        apply andb_true_iff in Hsubs as [H1 H2].
        now rewrite (Hw H1), IHl.
    - cbn [skeleton]. f_equal; [now apply erase_names|].
      clear - Hrel.
      induction Hrel as [|e e' l l' [Hn [_ [Hs _]]] _ IHl];
        simpl; [reflexivity|]. now rewrite Hn, Hs, IHl.
    - intros p w0 files0 subs0 Hres. destruct p as [|c p].
      + injection Hres as <- <- <-. exists files1, subs2.
        split; [reflexivity|]. split; [assumption|].
        split.
        { rewrite <- (length_map snd files1), Hk1. apply length_map. }
        intros n k Hn Hleft. apply (Hl1 n k Hn).
        unfold left_alone in Hleft. apply negb_true_iff in Hleft.
        apply andb_false_iff in Hleft as [Hx|Hx]; [now left | right].
        intros Hin. apply glob_conf_matches in Hin as [_ Hm]. congruence.
      + simpl in Hres. simpl.
        destruct (lookup c subs) as [sub|] eqn:Ec; [|discriminate].
        destruct (lookup_Forall2 (kept r) _ _ _ _ Hrel Ec)
          as (sub2 & -> & _ & _ & Hkeep).
        now apply Hkeep. }
  assert (forall l0 : subdirs_t,
             Forall2 (fun e e' => fst e' = fst e /\ kept r (snd e) (snd e'))
                     l0 l0) as Hsame.
  { induction l0; constructor; auto using kept_refl. }
  destruct st1; try (injection H as <- _ _; now apply Hdir).
  destruct r eqn:Er; [|injection H as <- _ _; now apply Hdir].
  destruct (walk_subdirs (rename_walk true d) subs rs1)
    as [[subs2 rs2] st2] eqn:E2.
  injection H as <- _ _. apply Hdir.
  refine (walk_subdirs_rel (kept true) _ _ (kept_refl true) _ _ _ _ _ E2).
  rewrite Forall_forall in *. intros e He rs0 t0 rs0' st0 H0.
  rewrite forallb_forall in Hsubs.
  destruct (IH e He (Hsubs e He) _ _ _ _ H0) as (H1 & H2 & H3).
  repeat split; auto.
Qed.

End Keeps.

(* ================================================================== *)
(** ** What a real pass prints, from what it did *)
(* ================================================================== *)

Section Moved.
Import PyStr FSFacts.

Local Abbreviation line := (fun p : string * string =>
                              renamed_line (fst p) (snd p)).












End Moved.

(* ================================================================== *)
(** ** A real pass whose planned names are all different *)
(* ================================================================== *)

Section Planned.
Import PyStr PyStrFacts PurePath PathFacts FSFacts.

Lemma distinct_targets_NoDup (l : list (option string)) :
  distinct_targets l = true -> NoDup l.
Proof.
  induction l as [|x l IH]; simpl; [constructor|].
  intros H. apply andb_true_iff in H as [Hx Hl].
  constructor; [|auto].
  intros Hin. apply negb_true_iff in Hx.
  assert (existsb (same_target x) l = true) as Hex; [|congruence].
  apply existsb_exists. exists x. split; [assumption|].
  destruct x; simpl; auto using String.eqb_refl.
Qed.

(** The loop reaches the first candidate the directory does not have. *)
Lemma next_available_loop_reaches (files : files_t) (subs : subdirs_t)
      (stem ext : string) (fuel : nat) :
  forall k j,
    k <= j -> j - k <= fuel ->
    (forall m, k <= m < j ->
               exists_ files subs (candidate stem ext m) = true) ->
    exists_ files subs (candidate stem ext j) = false ->
    next_available_loop fuel files subs stem ext
                        (candidate stem ext k) (k + 1)
    = Some (candidate stem ext j).
Proof.
  induction fuel as [|fuel IH]; intros k j Hkj Hfuel Htaken Hfree;
    cbn [next_available_loop].
  - replace k with j by lia. now rewrite Hfree.
  - destruct (Nat.eq_dec k j) as [->|Hne]; [now rewrite Hfree|].
    rewrite Htaken by lia.
    rewrite candidate_succ. apply IH; try lia; auto.
    intros m Hm. apply Htaken. lia.
Qed.

Lemma next_available_name_reaches (files : files_t) (subs : subdirs_t)
      (stem ext : string) (j : nat) :
  (forall m, m < j -> exists_ files subs (candidate stem ext m) = true) ->
  exists_ files subs (candidate stem ext j) = false ->
  next_available_name files subs stem ext = Some (candidate stem ext j).
Proof.
  intros Htaken Hfree. unfold next_available_name.
  apply (next_available_loop_reaches files subs stem ext _ 0 j);
    try lia; auto.
  - assert (NoDup (map (candidate stem ext) (seq 0 j))) as Hnd.
    { apply Injective_map_NoDup_in; [|apply seq_NoDup].
      intros x y _ _. apply candidate_inj. }
    assert (incl (map (candidate stem ext) (seq 0 j)) (names files subs))
      as Hincl.
    { intros c Hc. apply in_map_iff in Hc as (m & <- & Hm).
      apply in_seq in Hm. apply exists_In. apply Htaken. lia. }
    pose proof (NoDup_incl_length Hnd Hincl) as Hlen.
    rewrite length_map, length_seq in Hlen. lia.
  - intros m Hm. apply Htaken. lia.
Qed.

(** After [file] is renamed to a fresh [target], the directory has the
    names it had, but for those two. *)
Lemma exists_relabel (files : files_t) (subs : subdirs_t)
      (file target c : string) :
  no_links files = true ->
  NoDup (names files subs) -> In file (map fst files) ->
  c <> file -> c <> target ->
  exists_ (relabel file target files) subs c = exists_ files subs c.
Proof.
  intros Hk Hnd Hsrc Hcf Hct.
  rewrite !exists_plain by auto using no_links_relabel.
  destruct (mem c (names files subs)) eqn:E.
  - apply mem_In. apply mem_In in E. now apply In_relabel.
  - apply mem_not_In. apply mem_not_In in E.
    rewrite names_relabel_all by assumption.
    intros Hin. apply in_map_iff in Hin as (n & Hn & Hin).
    unfold swap_name in Hn. destruct (String.eqb n file); congruence.
Qed.

(** The final name of a target is the same after another file was
    renamed, unless it is the name that file was given. *)
Lemma final_target_relabel (files : files_t) (subs : subdirs_t)
      (file target tb u : string) :
  no_links files = true ->
  NoDup (names files subs) -> In file (map fst files) ->
  contains "@" file = true -> ~ In target (names files subs) ->
  contains "@" tb = false ->
  final_target files subs tb = Some u -> u <> target ->
  final_target (relabel file target files) subs tb = Some u.
Proof.
  intros Hk Hnd Hsrc Hat Hfresh Htb Hu Hne.
  assert (forall c, contains "@" c = false -> c <> file) as Hclean
      by (intros c Hc ->; congruence).
  unfold final_target in *.
  destruct (exists_ files subs tb) eqn:E.
  - assert (tb <> target) as Htt.
    { intros ->. apply exists_In in E. contradiction. }
    rewrite exists_relabel, E by auto.
    destruct (next_available_name_spec _ _ _ _ _ Hu) as (j & -> & Hfree & Hb).
    assert (forall m, contains "@"
                        (candidate (stem tb) (suffix tb) m) = false) as Hc.
    { intros m. apply candidate_clean.
      - change (nat_of_ascii "@") with 64. lia.
      - now rewrite stem_suffix. }
    apply next_available_name_reaches.
    + intros m Hm. rewrite exists_relabel; auto.
      intros Heq. apply Hfresh. rewrite <- Heq. apply exists_In. auto.
    + rewrite exists_relabel; auto.
  - injection Hu as <-. rewrite exists_relabel, E; auto.
Qed.

Lemma plan_relabel (files : files_t) (subs : subdirs_t)
      (file target n u : string) :
  no_links files = true ->
  NoDup (names files subs) -> is_file files file = true ->
  has_at file = true -> ~ In target (names files subs) ->
  matches_conf n = true ->
  plan files subs n = Some u -> u <> target ->
  plan (relabel file target files) subs n = Some u.
Proof.
  intros Hk Hnd Hf Hat Hfresh Hm Hp Hne. unfold plan in *.
  destruct (compute_target_name n) as [tb|] eqn:Et; [|discriminate].
  destruct (compute_target_name_conf _ _ Hm Et) as (pre & -> & Hpre).
  apply final_target_relabel; auto.
  - now apply is_file_names.
  - now apply contains_stem.
  - now rewrite contains_app, Hpre.
Qed.

Lemma planned_names_nil (files : files_t) (subs : subdirs_t) :
  planned_names files subs [] = files.
Proof.
  unfold planned_names. rewrite <- (map_id files) at 2.
  apply map_ext. reflexivity.
Qed.

Lemma planned_names_skip (files : files_t) (subs : subdirs_t)
      (file : string) (rest : list string) :
  to_rename files file = false ->
  planned_names files subs (file :: rest) = planned_names files subs rest.
Proof.
  intros Hx. unfold planned_names. apply map_ext. intros [m k].
  cbn [fst snd mem existsb].
  destruct (String.eqb m file) eqn:E; [|reflexivity].
  apply String.eqb_eq in E. subst m. rewrite Hx.
  now rewrite !andb_false_r.
Qed.

Lemma map_relabel {B} (f : string * ftype -> B) (src dst : string)
      (files : files_t) :
  map f (relabel src dst files)
  = map (fun e => f (if String.eqb (fst e) src then (dst, snd e) else e))
        files.
Proof. unfold relabel. now rewrite map_map. Qed.

(** Once [file] has the name planned for it, what is planned for the
    rest gives what was planned for all. *)
Lemma planned_names_step (files : files_t) (subs : subdirs_t)
      (file target : string) (rest : list string) :
  tidy subs (file :: rest) files ->
  to_rename files file = true ->
  plan files subs file = Some target ->
  ~ In target (names files subs) ->
  (forall n, In n (filter (to_rename files) rest) ->
             plan (relabel file target files) subs n = plan files subs n) ->
  planned_names (relabel file target files) subs rest
  = planned_names files subs (file :: rest).
Proof.
  intros Ht Hr Hp Hfresh Hsame.
  pose proof Ht as (_ & _ & Hincl & Hk).
  unfold planned_names. rewrite map_relabel.
  apply map_ext. intros [m k]. cbn [fst snd mem existsb].
  fold (mem m rest).
  destruct (String.eqb m file) eqn:E.
  - apply String.eqb_eq in E. subst m. cbn [fst snd].
    rewrite Hr, Hp. simpl.
    assert (mem target rest = false) as ->; [|reflexivity].
    apply mem_not_In. intros Hin. apply Hfresh, Hincl. now right.
  - cbn [fst snd]. simpl.
    destruct (mem m rest) eqn:Hmem; [|reflexivity]. simpl.
    apply mem_In in Hmem.
    destruct (tidy_other _ _ _ _ _ _ Ht Hfresh Hmem) as [H1 H2].
    rewrite (to_rename_local (relabel file target files) files m)
      by now apply is_file_relabel_other.
    destruct (to_rename files m) eqn:Hx; [|reflexivity].
    rewrite Hsame; [reflexivity|].
    apply filter_In. now split.
Qed.

(** A real pass over a writable directory whose planned names are all
    different gives every file the name planned for it at the start. *)
Lemma visit_all_as_planned (subs : subdirs_t) (l : list string) :
  forall files rs,
    tidy subs l files ->
    (forall n, In n l -> matches_conf n = true) ->
    NoDup (planned_targets files subs l) ->
    visit_all true subs false l files rs =
    (planned_names files subs l,
     mkRun (renamed rs + List.length (filter (to_rename files) l))
           (skipped rs + List.length (filter (to_skip files) l))
           (stdout rs ++ real_report files subs l),
     Normal).
Proof.
  unfold planned_targets, real_report.
  induction l as [|file rest IH]; intros files rs Ht Hm Hnd.
  - rewrite planned_names_nil. simpl.
    rewrite !Nat.add_0_r, List.app_nil_r. now destruct rs.
  - assert (forall n, In n rest -> matches_conf n = true) as Hm'
        by (intros n Hn; apply Hm; now right).
    pose proof (tidy_links _ _ _ Ht) as Hk.
    destruct (entry_cases files file) as [Hn|[Hs|Hr]].
    + rewrite (visit_all_cons _ _ _ _ _ _ _ _ _
                 (visit_not_file true subs _ _ _ _ Hn)).
      assert (to_rename files file = false) as Hx
          by (unfold to_rename; now rewrite Hn).
      rewrite planned_names_skip by assumption.
      unfold to_rename, to_skip in *. cbn [filter] in *.
      rewrite Hn in *. simpl in *. eauto using tidy_tail.
    + rewrite (visit_all_cons _ _ _ _ _ _ _ _ _
                 (visit_skip true subs _ _ _ _ Hs)).
      rewrite planned_names_skip by now apply to_skip_not_rename.
      cbn [filter] in *. rewrite Hs, (to_skip_not_rename _ _ Hs) in *.
      rewrite (IH files (count_skipped rs) (tidy_tail _ _ _ _ Ht) Hm' Hnd).
      simpl. do 2 f_equal. f_equal. lia.
    + destruct (visit_real_ok true subs file files rs Hk eq_refl Hr)
        as (target & Hp & Ev).
      rewrite (visit_all_cons _ _ _ _ _ _ _ _ _ Ev).
      pose proof (plan_fresh _ _ _ _ Hk Hp) as Hfresh.
      pose proof Hr as Hr'. unfold to_rename in Hr'.
      apply andb_true_iff in Hr' as [Hf Hat].
      (* the plans of the files still to visit are as they were *)
      assert (forall n, In n (filter (to_rename files) rest) ->
                        plan (relabel file target files) subs n
                        = plan files subs n) as Hsame.
      { cbn [filter] in Hnd. rewrite Hr in Hnd.
        cbn [map] in Hnd. rewrite Hp in Hnd.
        inversion Hnd as [|? ? Hnotin Hnd']; subst.
        intros n Hn. pose proof Hn as Hn'.
        apply filter_In in Hn' as [Hin Hx].
        unfold to_rename in Hx. apply andb_true_iff in Hx as [_ Hatn].
        destruct (plan_total files subs n Hatn) as (u & Hu).
        rewrite Hu. apply plan_relabel; auto.
        - apply Ht.
        - intros ->. apply Hnotin. apply in_map_iff. exists n.
          now split. }
      rewrite <- (planned_names_step files subs file target rest)
        by assumption.
      cbn [filter] in *. rewrite Hr, (to_rename_not_skip _ _ Hr) in *.
      cbn [map] in Hnd. rewrite Hp in Hnd.
      inversion Hnd as [|? ? Hnotin Hnd']; subst.
      assert (filter (to_rename (relabel file target files)) rest
              = filter (to_rename files) rest) as Hfr
          by (apply (filter_relabel subs); auto using to_rename_local).
      assert (filter (to_skip (relabel file target files)) rest
              = filter (to_skip files) rest) as Hfs
          by (apply (filter_relabel subs); auto using to_skip_local).
      rewrite (IH (relabel file target files)
                  (count_renamed (print (renamed_line file target) rs))
                  (tidy_relabel _ _ _ _ _ Ht Hf Hfresh) Hm').
      2:{ rewrite Hfr. rewrite (map_ext_in _ _ _ Hsame). exact Hnd'. }
      rewrite Hfr, Hfs.
      rewrite (map_ext_in _ (fun file0 =>
                 match plan files subs file0 with
                 | Some t => renamed_line file0 t
                 | None => EmptyString
                 end) (filter (to_rename files) rest))
        by (intros n Hn; now rewrite (Hsame n Hn)).
      simpl. rewrite Hp, <- List.app_assoc. simpl.
      do 2 f_equal. f_equal. lia.
Qed.

End Planned.

Section PlannedPass.
Import FSFacts.

Lemma walk_subdirs_exact (rep : tree -> list string) (f : tree -> tree)
      (walk : tree -> run_state -> tree * run_state * status)
      (l : subdirs_t) :
  Forall (fun e => forall rs, exists rs',
              walk (snd e) rs = (f (snd e), rs', Normal) /\
              stdout rs' = (stdout rs ++ rep (snd e))%list) l ->
  forall rs, exists rs',
    walk_subdirs walk l rs
    = (map (fun e => (fst e, f (snd e))) l, rs', Normal) /\
    stdout rs' = (stdout rs ++ flat_map (fun e => rep (snd e)) l)%list.
Proof.
  intros Hall. induction Hall as [|[n sub] l Hsub _ IH]; intros rs.
  - exists rs. simpl. now rewrite List.app_nil_r.
  - rewrite walk_subdirs_cons. simpl in Hsub.
    destruct (Hsub rs) as (rs1 & -> & Ho1).
    destruct (IH rs1) as (rs2 & -> & Ho2).
    exists rs2. split; [reflexivity|].
    simpl. now rewrite Ho2, Ho1, List.app_assoc.
Qed.

Lemma map_pairs {A B} (l : list (A * B)) :
  map (fun e => (fst e, snd e)) l = l.
Proof.
  rewrite <- (map_id l) at 2. apply map_ext. now intros [a b].
Qed.

(** In the model, a dry run, and a real pass through writable
    directories without links whose planned names are all different,
    print the lines of the plans made in the tree as it was; the real
    pass leaves every file under the name planned for it. *)
Lemma rename_walk_as_planned (r d : bool) (t : tree) :
  d = true \/
  (plain r t = true /\ writable_all r t = true /\
   distinct_plans r t = true) ->
  forall rs, exists rs',
    rename_walk r d t rs
    = ((if d then t else planned_tree r t), rs', Normal) /\
    stdout rs' = (stdout rs ++ pass_report d r t)%list.
Proof.
  induction t as [w files subs IH] using tree_ind'.
  intros Hok rs. cbn [rename_walk pass_report planned_tree].
  assert (exists rs1,
             visit_all w subs d (glob_conf files subs) files rs
             = ((if d then files else planned_files files subs),
                rs1, Normal) /\
             stdout rs1 =
             (stdout rs ++
                if d then dry_run_report files subs (glob_conf files subs)
                else real_report files subs (glob_conf files subs))%list)
    as (rs1 & -> & Ho1).
  { destruct d.
    - rewrite visit_all_dry. eauto.
    - destruct Hok as [Hok|(Hwf & Hw & Hd)]; [discriminate|].
      apply plain_here in Hwf.
      cbn [writable_all distinct_plans] in *.
      apply andb_true_iff in Hw as [-> _].
      apply andb_true_iff in Hd as [Hd _].
      rewrite (visit_all_as_planned subs (glob_conf files subs) files rs
                 (tidy_glob _ _ Hwf)
                 (fun n Hn => proj2 (proj1 (glob_conf_matches _ _ n) Hn))
                 (distinct_targets_NoDup _ Hd)).
      eauto. }
  destruct r eqn:Er.
  - assert (Forall (fun e => forall rs, exists rs',
                        rename_walk true d (snd e) rs
                        = ((if d then snd e else planned_tree true (snd e)),
                           rs', Normal) /\
                        stdout rs' =
                        (stdout rs ++ pass_report d true (snd e))%list)
                   subs) as Hsubs.
    { rewrite Forall_forall in *. intros e He. apply (IH e He).
      destruct Hok as [Hok|(Hwf & Hw & Hd)]; [now left | right].
      cbn [plain writable_all distinct_plans] in *.
      apply andb_true_iff in Hwf as [_ Hwf].
      apply andb_true_iff in Hw as [_ Hw].
      apply andb_true_iff in Hd as [_ Hd].
      rewrite forallb_forall in Hwf, Hw, Hd. auto. }
    destruct (walk_subdirs_exact
                (pass_report d true)
                (fun t => if d then t else planned_tree true t)
                _ _ Hsubs rs1) as (rs2 & -> & Ho2).
    exists rs2. split.
    + destruct d; [now rewrite map_pairs | reflexivity].
    + now rewrite Ho2, Ho1, List.app_assoc.
  - exists rs1. split.
    + now destruct d.
    + now rewrite Ho1, List.app_nil_r.
Qed.

Lemma Forall2_map_same {A B C} (R : B -> C -> Prop) (f : A -> B) (g : A -> C)
      (l : list A) :
  (forall x, In x l -> R (f x) (g x)) -> Forall2 R (map f l) (map g l).
Proof.
  induction l as [|x l IH]; simpl; intros H; constructor; auto.
Qed.

(** The two reports go line by line: same file, same name. *)
Lemma pass_report_lines (r : bool) (t : tree) :
  Forall2 (fun dry real =>
             exists file target,
               dry = dry_run_line file target /\
               real = renamed_line file target)
          (pass_report true r t) (pass_report false r t).
Proof.
  induction t as [w files subs IH] using tree_ind'.
  cbn [pass_report]. apply Forall2_app.
  - unfold dry_run_report, real_report. apply Forall2_map_same.
    intros n Hn. apply filter_In in Hn as [_ Hx].
    unfold to_rename in Hx. apply andb_true_iff in Hx as [_ Hat].
    destruct (plan_total files subs n Hat) as (u & ->). eauto.
  - destruct r; [|constructor].
    induction IH as [|e l He _ IHl]; simpl; [constructor|].
    now apply Forall2_app.
Qed.

End PlannedPass.

(* ================================================================== *)
(** * The documented properties *)
(* ================================================================== *)

Section Properties.
Import PyStr PyStrFacts PurePath PathFacts FSFacts.

Lemma candidate_pos (stem ext : string) (i : nat) :
  1 <= i -> candidate stem ext i = stem ++ "-" ++ str_of_int i ++ ext.
Proof. destruct i; [lia | reflexivity]. Qed.

(** The resolver returns [stem.ext] when the directory does not have
    it, and otherwise [stem-i.ext] for the least [i >= 1] the directory
    does not have. *)
Lemma next_available_name_least (files : files_t) (subs : subdirs_t)
      (stem ext : string) :
  exists final,
    next_available_name files subs stem ext = Some final /\
    ((exists_ files subs (stem ++ ext) = false /\ final = stem ++ ext) \/
     (exists_ files subs (stem ++ ext) = true /\
      exists i,
        1 <= i /\
        final = stem ++ "-" ++ str_of_int i ++ ext /\
        exists_ files subs final = false /\
        forall j, 1 <= j < i ->
                  exists_ files subs (stem ++ "-" ++ str_of_int j ++ ext)
                  = true)).
Proof.
  destruct (next_available_name_total files subs stem ext) as (final & H).
  exists final. split; [assumption|].
  destruct (next_available_name_spec _ _ _ _ _ H) as (i & Hc & Hfree & Hb).
  destruct i as [|i].
  - left. simpl in Hc. subst final. auto.
  - right. split; [apply (Hb 0); lia|].
    exists (S i). repeat split; auto; [lia|].
    intros j Hj. rewrite <- candidate_pos by lia. apply Hb. lia.
Qed.

(** C1. [compute_target_name] returns [None] exactly when the stem has
    no [@]. Otherwise it returns what is in the stem before its first
    [@] (so nothing of what follows it, further [@] included) with the
    suffix of the name appended. For an enumerated name whose stem
    begins with [@] that is [.conf] alone. A regular file for which it
    returns [None] is counted as skipped and not renamed. *)
Theorem compute_target_name_contract (src : string) :
  (compute_target_name src = None <-> contains "@" (stem src) = false) /\
  (contains "@" (stem src) = true ->
   exists pre rest,
     stem src = pre ++ String "@" rest /\
     contains "@" pre = false /\
     compute_target_name src = Some (pre ++ suffix src)) /\
  (forall rest,
      matches_conf src = true -> stem src = String "@" rest ->
      compute_target_name src = Some ".conf") /\
  (forall w subs d files rs,
      is_file files src = true -> compute_target_name src = None ->
      visit w subs d src files rs = (files, count_skipped rs, Normal)).
Proof.
  split; [apply compute_target_name_none|].
  split; [apply compute_target_name_some|].
  split.
  - intros rest Hm Hs.
    assert (has_at src = true) as Hat.
    { unfold has_at. rewrite Hs. reflexivity. }
    destruct (conf_with_at _ Hm Hat) as (b & _ & _ & _ & Hsuf).
    unfold compute_target_name. rewrite Hs, Hsuf. reflexivity.
  - intros w subs d files rs Hf Hnone. unfold visit.
    now rewrite Hf, Hnone.
Qed.

(** C2. When the directory has no entry named as the target, the final
    name is the target. When it has one, the final name is [stem-i.ext]
    for the least [i >= 1] such that the directory has no [stem-i.ext],
    [stem] and [ext] being the stem and the suffix of the target; the
    resolver always returns. In a directory that holds [a@x.conf] and
    [a.conf], in either order, the pass renames [a@x.conf] to
    [a-1.conf] and leaves [a.conf]. *)
Theorem collision_resolver_contract :
  (forall files subs stem ext,
      exists final,
        next_available_name files subs stem ext = Some final /\
        ((exists_ files subs (stem ++ ext) = false /\ final = stem ++ ext) \/
         (exists_ files subs (stem ++ ext) = true /\
          exists i,
            1 <= i /\
            final = stem ++ "-" ++ str_of_int i ++ ext /\
            exists_ files subs final = false /\
            forall j, 1 <= j < i ->
                      exists_ files subs
                              (stem ++ "-" ++ str_of_int j ++ ext)
                      = true))) /\
  (forall files subs target,
      exists final,
        final_target files subs target = Some final /\
        ((exists_ files subs target = false /\ final = target) \/
         (exists_ files subs target = true /\
          exists i,
            1 <= i /\
            final = stem target ++ "-" ++ str_of_int i ++ suffix target /\
            exists_ files subs final = false /\
            forall j, 1 <= j < i ->
                      exists_ files subs
                              (stem target ++ "-" ++ str_of_int j
                                    ++ suffix target)
                      = true))) /\
  rename_in_directory
    (Dir true [("a@x.conf", Regular); ("a.conf", Regular)] [])
    false false []
  = (Dir true [("a-1.conf", Regular); ("a.conf", Regular)] [],
     mkRun 1 1 ["Renamed: a@x.conf -> a-1.conf"], Normal) /\
  rename_in_directory
    (Dir true [("a.conf", Regular); ("a@x.conf", Regular)] [])
    false false []
  = (Dir true [("a.conf", Regular); ("a-1.conf", Regular)] [],
     mkRun 1 1 ["Renamed: a@x.conf -> a-1.conf"], Normal).
Proof.
  split; [apply next_available_name_least|].
  split; [|split; reflexivity].
  intros files subs target. unfold final_target.
  destruct (exists_ files subs target) eqn:E.
  - destruct (next_available_name_least files subs
                (stem target) (suffix target)) as (final & H & Hcase).
    exists final. split; [assumption|]. right. split; [reflexivity|].
    rewrite stem_suffix in Hcase.
    destruct Hcase as [[Hno _]|[_ Hi]]; [congruence | assumption].
  - exists target. split; [reflexivity|]. now left.
Qed.

(** C3, at an input where it fails. In a directory that holds
    [@x.conf] and [.conf], the target of [@x.conf] is [.conf], which
    exists; its stem is [.conf] and its suffix is empty, so the file is
    renamed to [.conf-1], which does not end in [.conf]. *)
Theorem extension_lost_after_hidden_collision :
  compute_target_name "@x.conf" = Some ".conf" /\
  stem ".conf" = ".conf" /\ suffix ".conf" = EmptyString /\
  rename_in_directory
    (Dir true [("@x.conf", Regular); (".conf", Regular)] [])
    false false []
  = (Dir true [(".conf-1", Regular); (".conf", Regular)] [],
     mkRun 1 1 ["Renamed: @x.conf -> .conf-1"], Normal) /\
  matches_conf ".conf-1" = false.
Proof. repeat split; reflexivity. Qed.

(** Apart from that case the final name keeps the extension: it ends
    in [.conf] unless the target is [.conf] itself and the directory
    has a [.conf]. *)
Lemma plan_keeps_extension (files : files_t) (subs : subdirs_t)
      (file final : string) :
  matches_conf file = true ->
  plan files subs file = Some final ->
  matches_conf final = true \/
  (compute_target_name file = Some ".conf" /\
   exists_ files subs ".conf" = true).
Proof.
  unfold plan. intros Hm.
  destruct (compute_target_name file) as [t|] eqn:Et; [|discriminate].
  destruct (compute_target_name_conf _ _ Hm Et) as (pre & -> & Hpre).
  unfold final_target.
  destruct (exists_ files subs (pre ++ ".conf")) eqn:E.
  - destruct (string_dec pre EmptyString) as [->|Hne]; [now right|].
    rewrite stem_conf, suffix_conf by assumption.
    intros H. left.
    apply next_available_name_spec in H as (j & -> & _).
    unfold matches_conf.
    destruct j as [|j]; [apply endswith_app|].
    unfold candidate. rewrite <- !PyStrFacts.app_assoc.
    apply endswith_app.
  - intros [= <-]. left. apply endswith_app.
Qed.




(** C5, at an input where it fails. In a directory that holds the
    regular file [c@z.conf] and, scanned after it, a symbolic link
    [b@y.conf] to it, a dry run counts both as renamed; a real pass
    renames the file, finds the link broken when it comes to it, and
    counts one. *)
Lemma dry_run_counts_a_link_the_real_pass_breaks :
  rename_in_directory
    (Dir true [("c@z.conf", Regular); ("b@y.conf", Link "c@z.conf")] [])
    false true []
  = (Dir true [("c@z.conf", Regular); ("b@y.conf", Link "c@z.conf")] [],
     mkRun 2 0 ["[DRY-RUN] c@z.conf -> c.conf";
                "[DRY-RUN] b@y.conf -> b.conf"],
     Normal) /\
  rename_in_directory
    (Dir true [("c@z.conf", Regular); ("b@y.conf", Link "c@z.conf")] [])
    false false []
  = (Dir true [("c.conf", Regular); ("b@y.conf", Link "c@z.conf")] [],
     mkRun 1 0 ["Renamed: c@z.conf -> c.conf"],
     Normal) /\
  renamed (mkRun 2 0 ["[DRY-RUN] c@z.conf -> c.conf";
                      "[DRY-RUN] b@y.conf -> b.conf"])
  <> renamed (mkRun 1 0 ["Renamed: c@z.conf -> c.conf"]).
Proof. repeat split; try reflexivity. discriminate. Qed.

(** C5, amended. A dry run leaves the tree as it was, however it ends,
    and so does [main] with [--dry-run]. When the directories the pass
    goes through have distinct names and no symbolic link, and both a
    dry run and a real pass from the same tree return, they report the
    same two counts. *)
Theorem dry_run_changes_nothing (root : tree) (r : bool)
        (out : list string) :
  (forall t' rs st,
      rename_in_directory root r true out = (t', rs, st) -> t' = root) /\
  (forall a wd,
      dry_run a = true ->
      fs (fst (main a wd)) = fs wd /\ cwd (fst (main a wd)) = cwd wd) /\
  (plain r root = true ->
   forall t1 rs t' rs',
     rename_in_directory root r true out = (t1, rs, Normal) ->
     rename_in_directory root r false out = (t', rs', Normal) ->
     renamed rs' = renamed rs /\ skipped rs' = skipped rs).
Proof.
  unfold rename_in_directory. split; [|split].
  - intros t' rs st H. now apply rename_walk_dry in H.
  - intros a wd Hd. unfold main.
    destruct (root_dir wd a) as [[pos root0]|] eqn:Eres; [|now split].
    unfold rename_in_directory. rewrite Hd.
    destruct (rename_walk (recursive a) true root0 (mkRun 0 0 (w_out wd)))
      as [[t1 rs1] st1] eqn:Hdry.
    apply rename_walk_dry in Hdry as [-> ->]. simpl.
    split; [|reflexivity].
    apply replace_resolve. eauto using root_dir_resolve.
  - intros Hp t1 rs t' rs' Hdry Hreal.
    destruct (rename_walk_counts r true root (or_introl eq_refl) _ _ _ Hdry)
      as (Hr & Hs & _).
    destruct (rename_walk_counts r false root (or_intror Hp) _ _ _ Hreal)
      as (Hr' & Hs' & _).
    split; congruence.
Qed.

Lemma dry_run_changes_nothing_witness :
  renamed (mkRun 2 1 ["Renamed: a@x.conf -> a-1.conf";
                      "Renamed: a@y.conf -> a-2.conf"])
  = renamed (mkRun 2 1 ["[DRY-RUN] a@x.conf -> a-1.conf";
                        "[DRY-RUN] a@y.conf -> a-1.conf"]) /\
  skipped (mkRun 2 1 ["Renamed: a@x.conf -> a-1.conf";
                      "Renamed: a@y.conf -> a-2.conf"])
  = skipped (mkRun 2 1 ["[DRY-RUN] a@x.conf -> a-1.conf";
                        "[DRY-RUN] a@y.conf -> a-1.conf"]).
Proof.
  exact (proj2 (proj2 (dry_run_changes_nothing
           (Dir true [("a@x.conf", Regular); ("a.conf", Regular);
                      ("a@y.conf", Regular)] [])
           false []))
           eq_refl
           (Dir true [("a@x.conf", Regular); ("a.conf", Regular);
                      ("a@y.conf", Regular)] [])
           (mkRun 2 1 ["[DRY-RUN] a@x.conf -> a-1.conf";
                       "[DRY-RUN] a@y.conf -> a-1.conf"])
           (Dir true [("a-1.conf", Regular); ("a.conf", Regular);
                      ("a-2.conf", Regular)] [])
           (mkRun 2 1 ["Renamed: a@x.conf -> a-1.conf";
                       "Renamed: a@y.conf -> a-2.conf"])
           eq_refl eq_refl).
Defined.







(** C8. When [os.rename] raises for an enumerated file, its visit ends
    with that exception and with the counters, the output and the
    directory as they were before it: no line is printed for the file
    and it is not counted. The loop stops there, the walk stops there,
    and [main] does not return: the exception leaves it, with no
    summary line. A directory that is not writable is such a case. *)
Theorem failed_rename_is_fatal (w : bool) (subs : subdirs_t)
        (file target : string) (files : files_t) (rs : run_state)
        (e : exn) :
  matches_conf file = true ->
  is_file files file = true ->
  plan files subs file = Some target ->
  rename w files subs file target = inr e ->
  visit w subs false file files rs = (files, rs, Raised e) /\
  (forall rest,
      visit_all w subs false (file :: rest) files rs
      = (files, rs, Raised e)) /\
  (forall r d w0 files0 subs0 rs0 files1 rs1 e0,
      visit_all w0 subs0 d (glob_conf files0 subs0) files0 rs0
      = (files1, rs1, Raised e0) ->
      rename_walk r d (Dir w0 files0 subs0) rs0
      = (Dir w0 files1 subs0, rs1, Raised e0)) /\
  (forall d w0 files0 subs0 rs0 files1 rs1 subs2 rs2 e0,
      visit_all w0 subs0 d (glob_conf files0 subs0) files0 rs0
      = (files1, rs1, Normal) ->
      walk_subdirs (rename_walk true d) subs0 rs1
      = (subs2, rs2, Raised e0) ->
      rename_walk true d (Dir w0 files0 subs0) rs0
      = (Dir w0 files1 subs2, rs2, Raised e0)) /\
  (forall walk n sub l rs0 sub' rs1 e0,
      walk sub rs0 = (sub', rs1, Raised e0) ->
      walk_subdirs walk ((n, sub) :: l) rs0
      = ((n, sub') :: l, rs1, Raised e0)) /\
  (forall a wd pos root root' rs1 e0,
      root_dir wd a = Some (pos, root) ->
      rename_in_directory root (recursive a) (dry_run a) (w_out wd)
      = (root', rs1, Raised e0) ->
      main a wd =
      (mkWorld (replace (fs wd) pos root') (cwd wd) (stdout rs1) (w_err wd),
       Uncaught e0) /\
      reported (dry_run a) (mkRun 0 0 (w_out wd)) rs1) /\
  (forall a wd pos files0 subs0 n,
      dry_run a = false ->
      root_dir wd a = Some (pos, Dir false files0 subs0) ->
      In n (glob_conf files0 subs0) -> to_rename files0 n = true ->
      exists sk,
        rename_in_directory (Dir false files0 subs0) (recursive a) false
                            (w_out wd)
        = (Dir false files0 subs0, mkRun 0 sk (w_out wd),
           Raised PermissionError) /\
        main a wd = (wd, Uncaught PermissionError)).
Proof.
  intros _ Hf Hp Hren.
  assert (visit w subs false file files rs = (files, rs, Raised e)) as Hv.
  { rewrite visit_plan, Hf, Hp. simpl.
    destruct (has_at file) eqn:Hat.
    - simpl. now rewrite Hren.
    - rewrite plan_none in Hp by assumption. discriminate. }
  split; [assumption|].
  split.
  { intros rest. cbn [visit_all]. now rewrite Hv. }
  split.
  { intros r d w0 files0 subs0 rs0 files1 rs1 e0 H.
    cbn [rename_walk]. now rewrite H. }
  split.
  { intros d w0 files0 subs0 rs0 files1 rs1 subs2 rs2 e0 H1 H2.
    cbn [rename_walk]. now rewrite H1, H2. }
  split.
  { intros walk n sub l rs0 sub' rs1 e0 H.
    rewrite walk_subdirs_cons. now rewrite H. }
  split.
  { intros a wd pos root root' rs1 e0 Hres Hrun. split.
    - unfold main. now rewrite Hres, Hrun.
    - unfold rename_in_directory in Hrun.
      exact (rename_walk_report _ _ _ _ _ _ _ Hrun). }
  intros a wd pos files0 subs0 n Hd Hres Hin Hx.
  unfold rename_in_directory. cbn [rename_walk].
  destruct (visit_all false subs0 false (glob_conf files0 subs0) files0
                      (mkRun 0 0 (w_out wd)))
    as [[files1 [rn sk out1]] st] eqn:E.
  destruct (visit_all_denied false subs0 _ eq_refl _ _ _ _ _ E)
    as (-> & Ho & Hr & Hst).
  simpl in Ho, Hr. subst out1 rn.
  destruct Hst as [[_ Hall]|[-> _]].
  { rewrite Hall in Hx by assumption. discriminate. }
  exists sk. split; [reflexivity|].
  unfold main, rename_in_directory. rewrite Hres, Hd.
  cbn [rename_walk]. rewrite E. simpl.
  rewrite (replace_resolve _ _ _ (root_dir_resolve _ _ _ _ Hres)).
  now destruct wd.
Qed.

Lemma failed_rename_is_fatal_witness :
  visit_all false [] false ["p.conf"; "a@x.conf"; "b@y.conf"]
            [("p.conf", Regular); ("a@x.conf", Regular);
             ("b@y.conf", Regular)]
            (mkRun 0 0 [])
  = ([("p.conf", Regular); ("a@x.conf", Regular); ("b@y.conf", Regular)],
     mkRun 0 1 [], Raised PermissionError).
Proof.
  pose proof (failed_rename_is_fatal false [] "a@x.conf" "a.conf"
                [("p.conf", Regular); ("a@x.conf", Regular);
                 ("b@y.conf", Regular)]
                (mkRun 0 1 []) PermissionError
                eq_refl eq_refl eq_refl eq_refl) as (_ & Hloop & _).
  exact (Hloop ["b@y.conf"]).
Defined.

(** C9, at an input where it fails. The directory holds the regular
    file [c@z.conf] and, scanned after it, a symbolic link [a.conf] to
    it: two enumerated entries are regular files. The pass renames
    [c@z.conf], finds the link broken when it comes to it and counts it
    nowhere: the two counters add up to one. *)
Lemma broken_link_is_counted_nowhere :
  regular_conf_files false
    (Dir true [("c@z.conf", Regular); ("a.conf", Link "c@z.conf")] [])
  = 2 /\
  rename_in_directory
    (Dir true [("c@z.conf", Regular); ("a.conf", Link "c@z.conf")] [])
    false false []
  = (Dir true [("c.conf", Regular); ("a.conf", Link "c@z.conf")] [],
     mkRun 1 0 ["Renamed: c@z.conf -> c.conf"],
     Normal) /\
  renamed (mkRun 1 0 ["Renamed: c@z.conf -> c.conf"])
  + skipped (mkRun 1 0 ["Renamed: c@z.conf -> c.conf"])
  <> regular_conf_files false
       (Dir true [("c@z.conf", Regular); ("a.conf", Link "c@z.conf")] []).
Proof. repeat split; try reflexivity. discriminate. Qed.

(** C9, amended. A visit that returns adds one to the two counters
    together when the entry is a regular file at that moment, and
    nothing otherwise: an entry that is not a regular file changes
    neither counter and prints nothing. When the pass returns, the two
    counters add up to the number of enumerated entries that were
    regular files before it, in a dry run, and in a real pass through
    directories with distinct names and no symbolic link. *)
Theorem counters_partition_regular_files (root : tree) (r d : bool)
        (out : list string) :
  (forall w subs file files files' rs rs',
      visit w subs d file files rs = (files', rs', Normal) ->
      renamed rs' + skipped rs'
      = renamed rs + skipped rs + (if is_file files file then 1 else 0)) /\
  (forall w subs file files rs,
      is_file files file = false ->
      visit w subs d file files rs = (files, rs, Normal)) /\
  (d = true \/ plain r root = true ->
   forall t' rs',
     rename_in_directory root r d out = (t', rs', Normal) ->
     renamed rs' + skipped rs' = regular_conf_files r root).
Proof.
  split; [|split].
  - intros w subs file files files' rs rs'. rewrite visit_plan.
    destruct (is_file files file); simpl;
      [|intros [= _ <- ]; lia].
    destruct (has_at file); simpl; [|intros [= _ <-]; simpl; lia].
    destruct (plan files subs file) as [target|]; [|discriminate].
    destruct d; [intros [= _ <-]; simpl; lia|].
    destruct (rename w files subs file target); [|discriminate].
    intros [= _ <-]. simpl. lia.
  - intros w subs file files rs. apply visit_not_file.
  - intros Hok t' rs' H. unfold rename_in_directory in H.
    destruct (rename_walk_counts r d root Hok _ _ _ H) as (Hr & Hs & _).
    rewrite regular_conf_files_split, Hr, Hs. reflexivity.
Qed.

Lemma counters_partition_regular_files_witness :
  exists t' rs',
    rename_in_directory
      (Dir true [("a@x.conf", Regular); ("fifo@y.conf", Special);
                 ("plain.conf", Regular); ("notes.txt", Regular)]
           [("d@z.conf", Dir true [] [])])
      false false [] = (t', rs', Normal) /\
    renamed rs' + skipped rs' = 2.
Proof.
  eexists _, _. split; [reflexivity|].
  exact (proj2 (proj2 (counters_partition_regular_files
           (Dir true [("a@x.conf", Regular); ("fifo@y.conf", Special);
                      ("plain.conf", Regular); ("notes.txt", Regular)]
                [("d@z.conf", Dir true [] [])])
           false false [])) (or_intror eq_refl) _ _ eq_refl).
Defined.

(** C10. A dry run makes every plan in the directory as it was when the
    pass began. With [a@x.conf] and [a@y.conf] and no [a.conf], it
    reports [a.conf] for both, where a real pass renames the first to
    [a.conf] and the second to [a-1.conf]. *)
Theorem dry_run_plans_in_unmutated_directory :
  (forall w subs l files rs,
      visit_all w subs true l files rs =
      (files,
       mkRun (renamed rs + List.length (filter (to_rename files) l))
             (skipped rs + List.length (filter (to_skip files) l))
             (stdout rs ++ dry_run_report files subs l),
       Normal)) /\
  rename_in_directory
    (Dir true [("a@x.conf", Regular); ("a@y.conf", Regular)] [])
    false true []
  = (Dir true [("a@x.conf", Regular); ("a@y.conf", Regular)] [],
     mkRun 2 0 ["[DRY-RUN] a@x.conf -> a.conf";
                "[DRY-RUN] a@y.conf -> a.conf"],
     Normal) /\
  rename_in_directory
    (Dir true [("a@x.conf", Regular); ("a@y.conf", Regular)] [])
    false false []
  = (Dir true [("a.conf", Regular); ("a-1.conf", Regular)] [],
     mkRun 2 0 ["Renamed: a@x.conf -> a.conf";
                "Renamed: a@y.conf -> a-1.conf"],
     Normal).
Proof.
  split; [|split; reflexivity].
  intros w subs l files rs. apply visit_all_dry.
Qed.

End Properties.

(* ================================================================== *)
(** * Further properties of the script *)
(* ================================================================== *)

(** ** What the pass keeps *)

Section KeepsProperties.

(** X3. When the directories the pass goes through have distinct names
    and no symbolic link, then however the pass ends, every one of them
    has as many entries as before, of the same kinds and in the same
    places, the same subdirectories, names that are still pairwise
    distinct and still no symbolic link: a rename never replaces an
    entry. *)
Theorem no_entry_is_lost (root : tree) (r d : bool) (out : list string)
        (t' : tree) (rs' : run_state) (st : status) :
  plain r root = true ->
  rename_in_directory root r d out = (t', rs', st) ->
  skeleton t' = skeleton root /\ plain r t' = true.
Proof.
  unfold rename_in_directory. intros Hwf H.
  destruct (rename_walk_keeps r d root Hwf _ _ _ _ H) as (H1 & H2 & _).
  now split.
Qed.

Lemma no_entry_is_lost_witness :
  skeleton (Dir true [("a-1.conf", Regular); ("a.conf", Regular);
                      ("a-2.conf", Regular)] [])
  = skeleton (Dir true [("a@x.conf", Regular); ("a.conf", Regular);
                        ("a@y.conf", Regular)] []).
Proof.
  exact (proj1 (no_entry_is_lost
                  (Dir true [("a@x.conf", Regular); ("a.conf", Regular);
                             ("a@y.conf", Regular)] [])
                  false false []
                  (Dir true [("a-1.conf", Regular); ("a.conf", Regular);
                             ("a-2.conf", Regular)] [])
                  (mkRun 2 1 ["Renamed: a@x.conf -> a-1.conf";
                              "Renamed: a@y.conf -> a-2.conf"])
                  Normal eq_refl eq_refl)).
Defined.

(** X4. When the directories the pass goes through have distinct names
    and no symbolic link, then however the pass ends, an entry that is
    not a regular file, or whose name does not match [*.conf], or whose
    stem has no [@], is still there under its name and with its kind,
    in every directory of the tree; with [-r] or without, and in a dry
    run. *)
Theorem other_entries_keep_their_names (root : tree) (r d : bool)
        (out : list string) (t' : tree) (rs' : run_state) (st : status) :
  plain r root = true ->
  rename_in_directory root r d out = (t', rs', st) ->
  keeps_entries root t'.
Proof.
  unfold rename_in_directory. intros Hwf H.
  now destruct (rename_walk_keeps r d root Hwf _ _ _ _ H) as (_ & _ & H3).
Qed.

Lemma other_entries_keep_their_names_witness :
  exists files' subs',
    resolve (Dir true [("a.conf", Regular)]
                 [("d", Dir true [("notes@home.txt", Regular);
                                  ("q.conf", Regular);
                                  ("pipe@x.conf", Special)] [])])
            ["d"]
    = Some (Dir true files' subs') /\
    lookup "notes@home.txt" files' = Some Regular /\
    lookup "pipe@x.conf" files' = Some Special.
Proof.
  destruct (other_entries_keep_their_names
              (Dir true [("a@x.conf", Regular)]
                   [("d", Dir true [("notes@home.txt", Regular);
                                    ("q@r.conf", Regular);
                                    ("pipe@x.conf", Special)] [])])
              true false []
              (Dir true [("a.conf", Regular)]
                   [("d", Dir true [("notes@home.txt", Regular);
                                    ("q.conf", Regular);
                                    ("pipe@x.conf", Special)] [])])
              (mkRun 2 0 ["Renamed: a@x.conf -> a.conf";
                          "Renamed: q@r.conf -> q.conf"])
              Normal eq_refl eq_refl
              ["d"] true
              [("notes@home.txt", Regular); ("q@r.conf", Regular);
               ("pipe@x.conf", Special)] [] eq_refl)
    as (files' & subs' & Hres & _ & _ & Hkeep).
  exists files', subs'. split; [exact Hres|].
  split; apply Hkeep; reflexivity.
Defined.

End KeepsProperties.

(** ** When the names a dry run reports are the names a real pass gives *)

Section PlannedProperties.

(** X5. The directories the pass goes through are writable, have
    distinct names and no symbolic link, and in each of them the names
    a dry run reports are all different. Then a real pass that returns
    has left every enumerated regular file whose stem has an [@] under
    the name planned for it in its directory as it was before the pass,
    and every other entry as it was. That name is the one the dry run
    reports: line for line, the real pass prints
    [Renamed: old -> new] where the dry run prints
    [[DRY-RUN] old -> new], and the two report the same count. *)
Theorem real_pass_follows_distinct_plans (root : tree) (r : bool)
        (out : list string) (t' : tree) (rs' : run_state) :
  plain r root = true ->
  writable_all r root = true ->
  distinct_plans r root = true ->
  rename_in_directory root r false out = (t', rs', Normal) ->
  t' = planned_tree r root /\
  stdout rs' = (out ++ pass_report false r root)%list /\
  (forall t1 rs,
      rename_in_directory root r true out = (t1, rs, Normal) ->
      stdout rs = (out ++ pass_report true r root)%list /\
      renamed rs = renamed rs') /\
  Forall2 (fun dry real =>
             exists file target,
               dry = dry_run_line file target /\
               real = renamed_line file target)
          (pass_report true r root) (pass_report false r root).
Proof.
  intros Hwf Hw Hd. unfold rename_in_directory. intros Hreal.
  destruct (rename_walk_as_planned r false root
              (or_intror (conj Hwf (conj Hw Hd))) (mkRun 0 0 out))
    as (rs1 & Hreal1 & Ho').
  rewrite Hreal1 in Hreal. injection Hreal as <- <-.
  split; [reflexivity|]. split; [assumption|].
  split; [|apply pass_report_lines].
  intros t1 rs Hdry.
  destruct (rename_walk_as_planned r true root (or_introl eq_refl)
              (mkRun 0 0 out)) as (rs2 & Hdry2 & Ho).
  rewrite Hdry2 in Hdry. injection Hdry as <- <-.
  split; [assumption|].
  destruct (rename_walk_counts r true root (or_introl eq_refl) _ _ _ Hdry2)
    as (Hc & _).
  destruct (rename_walk_counts r false root (or_intror Hwf) _ _ _ Hreal1)
    as (Hc' & _).
  congruence.
Qed.

Lemma real_pass_follows_distinct_plans_witness :
  Dir true [("a-1.conf", Regular); ("a.conf", Regular);
            ("b.conf", Regular); ("notes@x.txt", Regular)]
      [("d", Dir true [("a.conf", Regular)] [])]
  = planned_tree true
      (Dir true [("a@x.conf", Regular); ("a.conf", Regular);
                 ("b@y.conf", Regular); ("notes@x.txt", Regular)]
           [("d", Dir true [("a@z.conf", Regular)] [])]).
Proof.
  exact (proj1 (real_pass_follows_distinct_plans
                  (Dir true [("a@x.conf", Regular); ("a.conf", Regular);
                             ("b@y.conf", Regular);
                             ("notes@x.txt", Regular)]
                       [("d", Dir true [("a@z.conf", Regular)] [])])
                  true []
                  (Dir true [("a-1.conf", Regular); ("a.conf", Regular);
                             ("b.conf", Regular); ("notes@x.txt", Regular)]
                       [("d", Dir true [("a.conf", Regular)] [])])
                  (mkRun 3 1 ["Renamed: a@x.conf -> a-1.conf";
                              "Renamed: b@y.conf -> b.conf";
                              "Renamed: a@z.conf -> a.conf"])
                  eq_refl eq_refl eq_refl eq_refl)).
Defined.

End PlannedProperties.


(** ** Without [-r], and what is printed *)

Section TopLevel.
Import PyStr PyStrFacts PurePath PathFacts FSFacts.

(** The pass over a directory looks at its subdirectories by name
    only. *)
Lemma visit_all_subdir_names (w d : bool) (subs1 subs2 : subdirs_t)
      (l : list string) :
  map fst subs1 = map fst subs2 ->
  forall files rs,
    visit_all w subs1 d l files rs = visit_all w subs2 d l files rs.
Proof.
  intros Hn.
  assert (forall files c, exists_ files subs1 c = exists_ files subs2 c)
    as Hex by (intros; unfold exists_, names; now rewrite Hn).
  assert (forall fuel files stem ext c i,
             next_available_loop fuel files subs1 stem ext c i
             = next_available_loop fuel files subs2 stem ext c i) as Hloop.
  { induction fuel as [|fuel IH]; intros; cbn [next_available_loop];
      rewrite Hex; [reflexivity|]. now rewrite IH. }
  assert (forall files tb,
             final_target files subs1 tb = final_target files subs2 tb)
    as Hfinal.
  { intros. unfold final_target, next_available_name, names.
    now rewrite Hex, Hloop, Hn. }
  assert (forall files src dst,
             rename w files subs1 src dst = rename w files subs2 src dst)
    as Hren by (intros; unfold rename; now rewrite Hn).
  induction l as [|file rest IH]; intros files rs; [reflexivity|].
  cbn [visit_all].
  assert (visit w subs1 d file files rs = visit w subs2 d file files rs)
    as ->.
  { unfold visit. destruct (negb (is_file files file)); [reflexivity|].
    destruct (compute_target_name file); [|reflexivity].
    rewrite Hfinal. destruct (final_target files subs2 s); [|reflexivity].
    now rewrite Hren. }
  destruct (visit w subs2 d file files rs) as [[files1 rs1] st1].
  destruct st1; auto.
Qed.

(** X6. Without [-r] the pass hands the subdirectories back as they
    are, and when no entry of the directory is a symbolic link, what
    it does in the directory itself does not depend on what they hold,
    only on their names (which the existence checks see). *)
Theorem without_recursive_subdirectories_are_ignored
        (w d : bool) (files : files_t) (subs1 subs2 : subdirs_t)
        (out : list string) :
  no_links files = true ->
  map fst subs1 = map fst subs2 ->
  exists files' rs' st,
    rename_in_directory (Dir w files subs1) false d out
    = (Dir w files' subs1, rs', st) /\
    rename_in_directory (Dir w files subs2) false d out
    = (Dir w files' subs2, rs', st).
Proof.
  intros _ Hn. unfold rename_in_directory. cbn [rename_walk].
  assert (glob_conf files subs1 = glob_conf files subs2) as ->
      by (unfold glob_conf, names; now rewrite Hn).
  rewrite (visit_all_subdir_names w d subs1 subs2 _ Hn).
  destruct (visit_all w subs2 d (glob_conf files subs2) files (mkRun 0 0 out))
    as [[files1 rs1] st1].
  exists files1, rs1, st1. now destruct st1.
Qed.

Lemma without_recursive_subdirectories_are_ignored_witness :
  exists files' rs' st,
    rename_in_directory
      (Dir true [("a@x.conf", Regular)]
           [("a.conf", Dir true [("q@r.conf", Regular)] [])])
      false false []
    = (Dir true files' [("a.conf", Dir true [("q@r.conf", Regular)] [])],
       rs', st) /\
    rename_in_directory
      (Dir true [("a@x.conf", Regular)] [("a.conf", Dir false [] [])])
      false false []
    = (Dir true files' [("a.conf", Dir false [] [])], rs', st).
Proof.
  exact (without_recursive_subdirectories_are_ignored
           true false [("a@x.conf", Regular)]
           [("a.conf", Dir true [("q@r.conf", Regular)] [])]
           [("a.conf", Dir false [] [])] [] eq_refl eq_refl).
Defined.

(** X7. The loop of [next_available_name] stops within as many
    candidates as the directory has entries: the name it returns is
    candidate number [j] for some [j] that is at most the number of
    entries, and no other existence check is made. *)
Theorem next_available_name_bound (files : files_t) (subs : subdirs_t)
        (stem ext : string) :
  exists j,
    j <= List.length (names files subs) /\
    next_available_name files subs stem ext = Some (candidate stem ext j) /\
    forall fuel,
      j <= fuel ->
      next_available_loop fuel files subs stem ext (stem ++ ext) 1
      = Some (candidate stem ext j).
Proof.
  destruct (next_available_name_total files subs stem ext) as (c & Hc).
  destruct (next_available_name_spec _ _ _ _ _ Hc) as (j & -> & Hfree & Hb).
  exists j. split; [|split; [assumption|]].
  - assert (NoDup (map (candidate stem ext) (seq 0 j))) as Hnd.
    { apply Injective_map_NoDup_in; [|apply seq_NoDup].
      intros x y _ _. apply candidate_inj. }
    assert (incl (map (candidate stem ext) (seq 0 j)) (names files subs))
      as Hincl.
    { intros c Hin. apply in_map_iff in Hin as (m & <- & Hm).
      apply in_seq in Hm. apply exists_In. apply Hb. lia. }
    pose proof (NoDup_incl_length Hnd Hincl) as Hlen.
    now rewrite length_map, length_seq in Hlen.
  - intros fuel Hfuel.
    apply (next_available_loop_reaches files subs stem ext fuel 0 j);
      try lia; auto.
    intros m Hm. apply Hb. lia.
Qed.

End TopLevel.

Section Lines.
Import PyStr PyStrFacts PurePath PathFacts FSFacts.

Variables (r d : bool).

Lemma honestly_refl (rs : run_state) : honestly_reported d rs rs.
Proof. exists []. now rewrite List.app_nil_r. Qed.

Lemma honestly_trans (a b c : run_state) :
  honestly_reported d a b -> honestly_reported d b c ->
  honestly_reported d a c.
Proof.
  intros (l1 & Ho1 & Hf1) (l2 & Ho2 & Hf2). exists (l1 ++ l2)%list.
  rewrite Ho2, Ho1, <- List.app_assoc. split; [reflexivity|].
  apply Forall_app. now split.
Qed.

Lemma honestly_same (a b : run_state) :
  stdout b = stdout a -> honestly_reported d a b.
Proof. intros H. exists []. now rewrite List.app_nil_r. Qed.

Lemma visit_honest (w : bool) (subs : subdirs_t) (file : string)
      (files files' : files_t) (rs rs' : run_state) (st : status) :
  matches_conf file = true ->
  visit w subs d file files rs = (files', rs', st) ->
  honestly_reported d rs rs'.
Proof.
  intros Hm. rewrite visit_plan.
  destruct (negb (is_file files file));
    [intros [= _ <- _]; now apply honestly_same|].
  destruct (has_at file) eqn:Hat; simpl;
    [|intros [= _ <- _]; now apply honestly_same].
  destruct (plan files subs file) as [target|] eqn:Hp;
    [|intros [= _ <- _]; now apply honestly_same].
  assert (honest_line d (file_line d file target)) as Hline.
  { exists file, target. repeat split; auto.
    now apply (plan_clean files subs file). }
  destruct d.
  - intros [= _ <- _]. exists [dry_run_line file target].
    split; [reflexivity|]. now constructor.
  - destruct (rename w files subs file target); intros [= _ <- _].
    + exists [renamed_line file target].
      split; [reflexivity|]. now constructor.
    + exists []. now rewrite List.app_nil_r.
Qed.

Lemma visit_all_honest (w : bool) (subs : subdirs_t) (l : list string) :
  (forall n, In n l -> matches_conf n = true) ->
  forall files rs files' rs' st,
    visit_all w subs d l files rs = (files', rs', st) ->
    honestly_reported d rs rs'.
Proof.
  induction l as [|file rest IH]; intros Hm files rs files' rs' st H.
  - injection H as _ <- _. apply honestly_refl.
  - cbn [visit_all] in H.
    destruct (visit w subs d file files rs) as [[files1 rs1] st1] eqn:E.
    assert (honestly_reported d rs rs1) as H1.
    { apply (visit_honest _ _ _ _ _ _ _ _ (Hm file (or_introl eq_refl)) E). }
    destruct st1; try (now injection H as _ <- _).
    apply (honestly_trans _ _ _ H1).
    apply (IH (fun n Hn => Hm n (or_intror Hn)) _ _ _ _ _ H).
Qed.

Lemma rename_walk_honest (t : tree) :
  forall rs t' rs' st,
    rename_walk r d t rs = (t', rs', st) -> honestly_reported d rs rs'.
Proof.
  induction t as [w files subs IH] using tree_ind'.
  intros rs t' rs' st H. cbn [rename_walk] in H.
  destruct (visit_all w subs d (glob_conf files subs) files rs)
    as [[files1 rs1] st1] eqn:E.
  assert (honestly_reported d rs rs1) as H1.
  { apply (visit_all_honest _ _ _
             (fun n Hn => proj2 (proj1 (glob_conf_matches _ _ n) Hn))
             _ _ _ _ _ E). }
  destruct st1; try (now injection H as _ <- _).
  destruct r; [|now injection H as _ <- _].
  destruct (walk_subdirs (rename_walk true d) subs rs1)
    as [[subs2 rs2] st2] eqn:E2.
  injection H as _ <- _.
  apply (honestly_trans _ _ _ H1).
  eapply walk_subdirs_preorder;
    eauto using honestly_refl, honestly_trans.
Qed.

(** X8. However the pass ends, every per-file line it has printed tells
    of a file whose name matches [*.conf] and whose stem has an [@],
    and of a new name without any [@]; there are as many such lines as
    files counted as renamed. *)
Theorem printed_lines_are_honest (root : tree) (out : list string)
        (t' : tree) (rs' : run_state) (st : status) :
  rename_in_directory root r d out = (t', rs', st) ->
  exists lines,
    stdout rs' = (out ++ lines)%list /\
    List.length lines = renamed rs' /\
    Forall (honest_line d) lines.
Proof.
  unfold rename_in_directory. intros H.
  destruct (rename_walk_honest _ _ _ _ _ H) as (lines & Ho & Hf).
  destruct (rename_walk_report _ _ _ _ _ _ _ H) as (lines' & Ho' & Hr & _).
  simpl in *. exists lines. repeat split; auto.
  rewrite Ho in Ho'. apply List.app_inv_head in Ho'. subst lines'.
  now rewrite Hr.
Qed.

End Lines.

Lemma printed_lines_are_honest_witness :
  Forall (honest_line false)
         ["Renamed: a@x.conf -> a-1.conf"; "Renamed: q@r.conf -> q.conf"].
Proof.
  destruct (printed_lines_are_honest
              true false
              (Dir true [("a@x.conf", Regular); ("a.conf", Regular)]
                   [("d", Dir true [("q@r.conf", Regular)] [])])
              [] _ _ _ eq_refl) as (lines & Ho & _ & Hf).
  simpl in Ho. subst lines. exact Hf.
Defined.

(** ** The order of the scan *)

Section ScanOrder.
Import FSFacts.

Lemma Permutation_filter_length {A} (q : A -> bool) (l l' : list A) :
  Permutation l l' ->
  List.length (filter q l) = List.length (filter q l').
Proof.
  induction 1 as [|x l l' _ IH|x y l|l l' l'' _ IH1 _ IH2]; simpl.
  - reflexivity.
  - destruct (q x); simpl; congruence.
  - destruct (q x), (q y); reflexivity.
  - congruence.
Qed.

Lemma Permutation_filter_same {A} (q : A -> bool) (l l' : list A) :
  Permutation l l' -> Permutation (filter q l) (filter q l').
Proof.
  induction 1 as [|x l l' _ IH|x y l|l l' l'' _ IH1 _ IH2]; simpl.
  - constructor.
  - destruct (q x); auto.
  - destruct (q x), (q y); auto. constructor.
  - now transitivity (filter q l').
Qed.

Lemma lookup_Permutation {A} (n : string) (l l' : list (string * A)) :
  Permutation l l' -> NoDup (map fst l) -> lookup n l = lookup n l'.
Proof.
  induction 1 as [|[m x] l l' Hp IH|[m x] [m' y] l|l l' l'' Hp1 IH1 Hp2 IH2];
    simpl; intros Hnd.
  - reflexivity.
  - inversion Hnd; subst. now rewrite IH.
  - inversion Hnd as [|? ? Hnotin _]; subst.
    destruct (String.eqb m' n) eqn:E1, (String.eqb m n) eqn:E2; auto.
    apply String.eqb_eq in E1, E2. subst. exfalso. apply Hnotin. now left.
  - rewrite IH1 by assumption. apply IH2.
    eapply Permutation_NoDup; [|exact Hnd]. now apply Permutation_map.
Qed.

(** X9. Without [-r], in a directory with distinct names and no
    symbolic link, the two counts a pass reports do not depend on the
    order in which the directory is scanned: two scans of the same
    entries in different orders give the same counts when the passes
    return (the names given can differ). *)
Theorem counts_do_not_depend_on_scan_order
        (w w2 d : bool) (files files2 : files_t) (subs subs2 : subdirs_t)
        (out out2 : list string) (t1 t2 : tree) (rs1 rs2 : run_state) :
  plain false (Dir w files subs) = true ->
  Permutation files files2 ->
  Permutation (map fst subs) (map fst subs2) ->
  rename_in_directory (Dir w files subs) false d out = (t1, rs1, Normal) ->
  rename_in_directory (Dir w2 files2 subs2) false d out2 = (t2, rs2, Normal) ->
  renamed rs1 = renamed rs2 /\ skipped rs1 = skipped rs2.
Proof.
  intros Hwf1 Hpf Hps H1 H2. unfold rename_in_directory in *.
  assert (Permutation (names files subs) (names files2 subs2)) as Hpn.
  { unfold names. apply Permutation_app; [|assumption].
    now apply Permutation_map. }
  pose proof Hwf1 as Hnd. cbn [plain] in Hnd. rewrite andb_true_r in Hnd.
  apply andb_true_iff in Hnd as [Hnd Hk].
  apply nodup_names_NoDup in Hnd.
  assert (no_links files2 = true) as Hk2.
  { unfold no_links in *. rewrite forallb_forall in *.
    intros e He. apply Hk. eapply Permutation_in; [|exact He].
    now apply Permutation_sym. }
  assert (plain false (Dir w2 files2 subs2) = true) as Hwf2.
  { cbn [plain]. rewrite Hk2, !andb_true_r. apply nodup_names_NoDup.
    eapply Permutation_NoDup; eauto. }
  destruct (rename_walk_counts false d _ (or_intror Hwf1) _ _ _ H1)
    as (Hr1 & Hs1 & _).
  destruct (rename_walk_counts false d _ (or_intror Hwf2) _ _ _ H2)
    as (Hr2 & Hs2 & _).
  cbn [count_conf] in *. simpl in Hr1, Hs1, Hr2, Hs2.
  assert (forall n, is_file files n = is_file files2 n) as Hfile.
  { intros n. rewrite !is_file_plain by assumption.
    rewrite (lookup_Permutation n _ _ Hpf); [reflexivity|].
    unfold names in Hnd. now apply NoDup_app_remove_r in Hnd. }
  assert (forall p : files_t -> string -> bool,
             (forall fs fs' n, is_file fs n = is_file fs' n ->
                               p fs n = p fs' n) ->
             List.length (filter (p files) (glob_conf files subs))
             = List.length (filter (p files2) (glob_conf files2 subs2)))
    as Hcount.
  { intros p Hp. unfold glob_conf.
    rewrite (filter_ext (p files) (p files2)) by (intros n; now apply Hp).
    apply Permutation_filter_length.
    now apply Permutation_filter_same. }
  rewrite Hr1, Hr2, Hs1, Hs2.
  rewrite (Hcount to_rename to_rename_local),
          (Hcount to_skip to_skip_local).
  now split.
Qed.

Lemma counts_do_not_depend_on_scan_order_witness :
  renamed (mkRun 2 1 ["Renamed: a@x.conf -> a.conf";
                      "Renamed: a@y.conf -> a-1.conf"])
  = renamed (mkRun 2 1 ["Renamed: a@y.conf -> a.conf";
                        "Renamed: a@x.conf -> a-1.conf"]).
Proof.
  exact (proj1 (counts_do_not_depend_on_scan_order
                  true true false
                  [("a@x.conf", Regular); ("a@y.conf", Regular);
                   ("p.conf", Regular)]
                  [("a@y.conf", Regular); ("a@x.conf", Regular);
                   ("p.conf", Regular)]
                  [] [] [] [] _ _ _ _
                  eq_refl (perm_swap _ _ _) (perm_nil _)
                  eq_refl eq_refl)).
Defined.

End ScanOrder.

(** ** A dry run after a real pass *)

Section Afterwards.

(** X10. When the directories the pass goes through have distinct
    names and no symbolic link, then after a real pass that returned, a
    dry run over the tree it left plans no rename at all: it prints no
    per-file line, counts no file as renamed and counts every
    enumerated regular file as unchanged, with [-r] as without. *)
Theorem dry_run_after_real_pass_plans_nothing (root : tree) (r : bool)
        (out : list string) (t1 : tree) (rs1 : run_state) :
  plain r root = true ->
  rename_in_directory root r false out = (t1, rs1, Normal) ->
  forall out2,
    rename_in_directory t1 r true out2
    = (t1, mkRun 0 (regular_conf_files r t1) out2, Normal).
Proof.
  unfold rename_in_directory. intros Hwf H out2.
  destruct (rename_walk_counts r false root (or_intror Hwf) _ _ _ H)
    as (_ & _ & Hafter).
  unfold after in Hafter.
  rewrite rename_walk_quiet by assumption. simpl.
  now rewrite regular_conf_files_split, Hafter.
Qed.

Lemma dry_run_after_real_pass_plans_nothing_witness :
  rename_in_directory
    (Dir true [("a-1.conf", Regular); ("a.conf", Regular)]
         [("d", Dir true [("q.conf", Regular); ("q@r.txt", Regular)] [])])
    true true ["earlier"]
  = (Dir true [("a-1.conf", Regular); ("a.conf", Regular)]
         [("d", Dir true [("q.conf", Regular); ("q@r.txt", Regular)] [])],
     mkRun 0 3 ["earlier"], Normal).
Proof.
  exact (dry_run_after_real_pass_plans_nothing
           (Dir true [("a@x.conf", Regular); ("a.conf", Regular)]
                [("d", Dir true [("q@r.conf", Regular);
                                 ("q@r.txt", Regular)] [])])
           true [] _ _ eq_refl eq_refl ["earlier"]).
Defined.

End Afterwards.
